(** * The project workspace page: data orchestration of [ProjectPage]

    A shallow embedding of
    [src/app/(dashboard)/projects/[projectId]/page.tsx]: the React state of
    the component, the asynchronous handlers that talk to the backend through
    [apiClient], and the merges they apply to the [data] state. *)

From stdpp Require Import base option strings list gmap pretty.

Open Scope string_scope.
Open Scope list_scope.

(** ** Data model *)

(** The type declarations of ["@/lib/types"] ([Project], [Chat],
    [ProjectDocument], [ProjectSettings]) are not part of the sources.  The
    page itself only reads the [id] of a chat and of a document; the other
    fields follow the data model of the spec. *)

(** Modelled from the spec: the declaration of [Project] is missing; the
    spec gives it an opaque string id and read-only metadata. *)
Record Project := { project_id : string }.

(** Modelled from the spec: the declaration of [Chat] is missing; the spec
    lists an id, a title and the project id. *)
Record Chat :=
  { chat_id : string; chat_title : string; chat_project_id : string }.

(** Modelled from the spec: the source type of a document is missing; the
    spec has uploaded files and url-sourced documents. *)
Inductive SourceType := UploadedFile | UrlSourced.

(** Modelled from the spec: the declaration of [ProjectDocument] is
    missing; the spec lists an id, a source type and a status. *)
Record ProjectDocument :=
  { doc_id : string; doc_source_type : SourceType; doc_status : string }.

(** Modelled from the spec: the declaration of [ProjectSettings] is
    missing; the spec calls it a single shallow record of named options.
    It is a finite map from option names to plain JavaScript values. *)
Inductive jsval := JNull | JBool (b : bool) | JNum (n : Z) | JStr (s : string).

Abbreviation ProjectSettings := (gmap string jsval).

(** The browser [File] objects handed to the upload handler. *)
Record File := {
  file_name : string;
  file_size : N;
  file_type : string;
  file_bytes : list N;
}.

(** [interface ProjectData] *)
Record ProjectData := {
  project : option Project;
  chats : list Chat;
  documents : list ProjectDocument;
  settings : option ProjectSettings;
}.

(** ** Promises, requests and the observable trace *)

(** How an awaited promise ends: it is fulfilled with a value, it is
    rejected (the [catch (err)] blocks of the page never look at [err]), or
    it never settles. *)
Inductive outcome (A : Type) : Type :=
| Fulfilled (a : A)
| Rejected
| Pending.
Arguments Fulfilled {A} a.
Arguments Rejected {A}.
Arguments Pending {A}.

(** [getToken()] of Clerk resolves to [string | null]. *)
Abbreviation token := (option string).

Inductive body :=
| ChatBody (title project_id : string)
| UploadUrlBody (filename : string) (file_size : N) (file_type : string)
| ConfirmBody (s3_key : string)
| UrlBody (url : string).

(** The calls of [apiClient]. *)
Inductive request :=
| Get (path : string) (tk : token)
| Post (path : string) (b : body) (tk : token)
| Put (path : string) (b : ProjectSettings) (tk : token)
| Delete (path : string) (tk : token)
| UploadToS3 (upload_url : string) (file : File).

(** What an observer of the page can see, in the order it happens. *)
Inductive event :=
| EGetToken
| ERemote (r : request)
| EToastError (msg : string)
| EToastSuccess (msg : string)
| EConsoleWarn (msg : string)
| ESetData (d : ProjectData).

(** The [useState] cells of the component, and the trace of events. *)
Record World := {
  st_data : ProjectData;
  st_loading : bool;
  st_error : option string;
  st_isCreatingChat : bool;
  trace : list event;
}.

(** The state of the first render. *)
Definition initial_data : ProjectData :=
  {| project := None; chats := []; documents := []; settings := None |}.

Definition initial_world : World :=
  {| st_data := initial_data; st_loading := true; st_error := None;
     st_isCreatingChat := false; trace := [] |}.

(** ** The backend as seen from the page

    [apiClient] (["@/lib/api"]) and [getToken] (Clerk's [useAuth]) are not
    part of the sources: every answer of the outside world, and the clock
    read by [Date.now()], is an input of the model.  The answers
    to the three calls of the upload pipeline are indexed by the position of
    the file in the batch, so that two files with the same name may fare
    differently. *)
Record UploadTarget := { upload_url : string; s3_key : string }.

Record Backend := {
  getToken : outcome token;
  get_project : request → outcome (option Project);
  get_chats : request → outcome (list Chat);
  get_files : request → outcome (list ProjectDocument);
  get_settings : request → outcome (option ProjectSettings);
  post_chat : request → outcome Chat;
  delete_any : request → outcome unit;
  post_upload_url : nat → request → outcome UploadTarget;
  put_s3 : nat → request → outcome unit;
  post_confirm : nat → request → outcome ProjectDocument;
  post_url : request → outcome ProjectDocument;
  put_settings : request → outcome (option ProjectSettings);
  now : N;
}.

(** ** The monad of handlers: state, trace and promise outcome *)

Definition M (A : Type) : Type := World → outcome A * World.

#[global] Instance M_ret : MRet M := λ A a w, (Fulfilled a, w).

#[global] Instance M_bind : MBind M := λ A B f m w,
  match m w with
  | (Fulfilled a, w') => f a w'
  | (Rejected, w') => (Rejected, w')
  | (Pending, w') => (Pending, w')
  end.

Definition log (e : event) (w : World) : World :=
  {| st_data := st_data w; st_loading := st_loading w; st_error := st_error w;
     st_isCreatingChat := st_isCreatingChat w; trace := trace w ++ [e] |}.

Definition emit (e : event) : M unit := λ w, (Fulfilled tt, log e w).

(** Awaiting a call: the call is issued, then the handler resumes with the
    outcome. *)
Definition await {A} (e : event) (o : outcome A) : M A := λ w, (o, log e w).

(** [setData(updater)]: the updater runs on the current state; it may
    print to the console before it returns the next state. *)
Definition setDataWith (f : ProjectData → M ProjectData) : M unit := λ w,
  match f (st_data w) w with
  | (Fulfilled d, w') =>
      (Fulfilled tt,
       {| st_data := d; st_loading := st_loading w'; st_error := st_error w';
          st_isCreatingChat := st_isCreatingChat w';
          trace := trace w' ++ [ESetData d] |})
  | (Rejected, w') => (Rejected, w')
  | (Pending, w') => (Pending, w')
  end.

Definition setData (f : ProjectData → ProjectData) : M unit :=
  setDataWith (λ prev, mret (f prev)).

Definition setLoading (b : bool) : M unit := λ w,
  (Fulfilled tt,
   {| st_data := st_data w; st_loading := b; st_error := st_error w;
      st_isCreatingChat := st_isCreatingChat w; trace := trace w |}).

Definition setError (e : option string) : M unit := λ w,
  (Fulfilled tt,
   {| st_data := st_data w; st_loading := st_loading w; st_error := e;
      st_isCreatingChat := st_isCreatingChat w; trace := trace w |}).

Definition setIsCreatingChat (b : bool) : M unit := λ w,
  (Fulfilled tt,
   {| st_data := st_data w; st_loading := st_loading w; st_error := st_error w;
      st_isCreatingChat := b; trace := trace w |}).

Definition toast_error (msg : string) : M unit := emit (EToastError msg).
Definition toast_success (msg : string) : M unit := emit (EToastSuccess msg).
Definition console_warn (msg : string) : M unit := emit (EConsoleWarn msg).

(** [try { body } catch (err) { handler } finally { fin }] *)
Definition try_catch_finally (body handler fin : M unit) : M unit := λ w,
  match body w with
  | (Fulfilled _, w1) => fin w1
  | (Rejected, w1) =>
      match handler w1 with
      | (Fulfilled _, w2) => fin w2
      | (Rejected, w2) =>
          match fin w2 with
          | (Fulfilled _, w3) => (Rejected, w3)
          | r => r
          end
      | (Pending, w2) => (Pending, w2)
      end
  | (Pending, w1) => (Pending, w1)
  end.

Definition try_catch (body handler : M unit) : M unit :=
  try_catch_finally body handler (mret tt).

(** [Promise.all] of four calls: the four calls are issued one after the
    other before anything is awaited; the result is rejected as soon as one
    of them is, and pending while none is rejected and one is pending. *)
Definition join {A B} (oa : outcome A) (ob : outcome B) : outcome (A * B) :=
  match oa, ob with
  | Fulfilled a, Fulfilled b => Fulfilled (a, b)
  | Rejected, _ | _, Rejected => Rejected
  | _, _ => Pending
  end.

Definition Promise_all4 {A B C D}
    (ra : request) (oa : outcome A) (rb : request) (ob : outcome B)
    (rc : request) (oc : outcome C) (rd : request) (od : outcome D)
  : M (A * B * C * D) := λ w,
  (join (join (join oa ob) oc) od,
   log (ERemote rd) (log (ERemote rc) (log (ERemote rb) (log (ERemote ra) w)))).

(** [!userId]: [null], [undefined] and the empty string are falsy. *)
Definition falsy (userId : option string) : bool :=
  match userId with
  | None => true
  | Some s => bool_decide (s = "")
  end.

(** ** The merges applied by [setData] *)

(** [{...prev, chats: [savedChat, ...prev.chats]}] *)
Definition prepend_chat (savedChat : Chat) (prev : ProjectData) : ProjectData :=
  {| project := project prev; chats := savedChat :: chats prev;
     documents := documents prev; settings := settings prev |}.

(** [{...prev, chats: prev.chats.filter((chat) => chat.id !== chatId)}] *)
Definition remove_chat (chatId : string) (prev : ProjectData) : ProjectData :=
  {| project := project prev;
     chats := filter (λ chat, chat_id chat ≠ chatId) (chats prev);
     documents := documents prev; settings := settings prev |}.

(** [{...prev, documents: [...uploadedDocuments, ...prev.documents]}] *)
Definition prepend_documents (uploadedDocuments : list ProjectDocument)
    (prev : ProjectData) : ProjectData :=
  {| project := project prev; chats := chats prev;
     documents := uploadedDocuments ++ documents prev;
     settings := settings prev |}.

(** [{...prev, documents: prev.documents.filter((doc) => doc.id !== documentId)}] *)
Definition remove_document (documentId : string) (prev : ProjectData)
  : ProjectData :=
  {| project := project prev; chats := chats prev;
     documents := filter (λ doc, doc_id doc ≠ documentId) (documents prev);
     settings := settings prev |}.

(** [{...prev, documents: [newDocument, ...prev.documents]}] *)
Definition prepend_document (newDocument : ProjectDocument)
    (prev : ProjectData) : ProjectData :=
  {| project := project prev; chats := chats prev;
     documents := newDocument :: documents prev; settings := settings prev |}.

(** [{...prev, settings: result.data}] *)
Definition replace_settings (s : option ProjectSettings) (prev : ProjectData)
  : ProjectData :=
  {| project := project prev; chats := chats prev;
     documents := documents prev; settings := s |}.

(** The object spread [{...prev.settings, ...updates}]: the keys of
    [updates] win, the other keys of [prev.settings] stay. *)
Definition spread (old updates : ProjectSettings) : ProjectSettings :=
  updates ∪ old.

(** ** The handlers *)

Section Handlers.
Context (userId : option string) (projectId : string) (env : Backend).

Definition call_getToken : M token := await EGetToken (getToken env).

Definition loadAllData : M unit :=
  if falsy userId then mret tt else
  try_catch_finally
    (setLoading true;;
     setError None;;
     tk ← call_getToken;
     let r1 := Get ("/api/projects/" +:+ projectId) tk in
     let r2 := Get ("/api/projects/" +:+ projectId +:+ "/chats") tk in
     let r3 := Get ("/api/projects/" +:+ projectId +:+ "/files") tk in
     let r4 := Get ("/api/projects/" +:+ projectId +:+ "/settings") tk in
     '(projectRes, chatsRes, documentsRes, settingsRes) ←
        Promise_all4 r1 (get_project env r1) r2 (get_chats env r2)
                     r3 (get_files env r3) r4 (get_settings env r4);
     setData (λ _, {| project := projectRes; chats := chatsRes;
                      documents := documentsRes; settings := settingsRes |}))
    (setError (Some "Failed to fetch data");;
     toast_error "Failed to fetch data")
    (setLoading false).

Definition handleCreateNewChat : M unit :=
  if falsy userId then mret tt else
  try_catch_finally
    (setIsCreatingChat true;;
     tk ← call_getToken;
     let chatNumber := (now env mod 10000)%N in
     let r := Post "/api/chats"
                (ChatBody ("Chat #" +:+ pretty chatNumber) projectId) tk in
     savedChat ← await (ERemote r) (post_chat env r);
     setData (prepend_chat savedChat);;
     toast_success "Chat Created successfully")
    (toast_error "Failed to create chat")
    (setIsCreatingChat false).

Definition handleDeleteChat (chatId : string) : M unit :=
  if falsy userId then mret tt else
  try_catch
    (tk ← call_getToken;
     let r := Delete ("/api/chats/" +:+ chatId) tk in
     await (ERemote r) (delete_any env r);;
     setData (remove_chat chatId);;
     toast_success "Chat deleted successfully")
    (toast_error "Failed to delete chat").

Definition handleDocumentDelete (documentId : string) : M unit :=
  if falsy userId then mret tt else
  try_catch
    (tk ← call_getToken;
     let r := Delete ("/api/projects/" +:+ projectId +:+ "/files/"
                        +:+ documentId) tk in
     await (ERemote r) (delete_any env r);;
     setData (remove_document documentId);;
     toast_success "Document deleted successfully!")
    (toast_error "Document deletion failed").

Definition handleUrlAdd (url : string) : M unit :=
  if falsy userId then mret tt else
  try_catch
    (tk ← call_getToken;
     let r := Post ("/api/projects/" +:+ projectId +:+ "/urls")
                (UrlBody url) tk in
     newDocument ← await (ERemote r) (post_url env r);
     setData (prepend_document newDocument);;
     toast_success "Website added successfully!")
    (toast_error "Failed to add website").

(** [handleDraftSettings] is synchronous and does not look at [userId];
    the warning is printed by the updater. *)
Definition handleDraftSettings (updates : ProjectSettings) : M unit :=
  setDataWith (λ prev,
    match settings prev with
    | None =>
        console_warn "Cannot update settings: not loaded yet";;
        mret prev
    | Some s =>
        mret {| project := project prev; chats := chats prev;
                documents := documents prev;
                settings := Some (spread s updates) |}
    end).

(** [data] is the state value of the render that created the handler. *)
Definition handlePublishSettings (data : ProjectData) : M unit :=
  match falsy userId, settings data with
  | false, Some s =>
      try_catch
        (tk ← call_getToken;
         let r := Put ("/api/projects/" +:+ projectId +:+ "/settings") s tk in
         result ← await (ERemote r) (put_settings env r);
         setData (replace_settings result);;
         toast_success "Settings saved successfully!")
        (toast_error "Failed to save settings!")
  | _, _ => toast_error "Cannot save settings"
  end.

(** *** The upload pipeline

    [files.map(async (file) => ...)] starts one pipeline per file.  Each
    pipeline runs up to its first [await] at once, so the batch begins with
    every upload-url request issued in file order.  From then on the
    pipelines advance one at a time, each time the promise one of them
    awaits settles; the order is the environment's and is given by a
    schedule, the list of the pipelines resumed. *)

(** Where a pipeline is suspended. *)
Inductive stage :=
| AwaitReserve
| AwaitTransfer (target : UploadTarget)
| AwaitConfirm (key : string)
| Settled.

Record Batch := {
  pipelines : list stage;
  uploadedDocuments : list ProjectDocument;
}.

Definition reserve_request (tk : token) (file : File) : request :=
  Post ("/api/projects/" +:+ projectId +:+ "/files/upload-url")
       (UploadUrlBody (file_name file) (file_size file) (file_type file)) tk.

Definition transfer_request (target : UploadTarget) (file : File) : request :=
  UploadToS3 (upload_url target) file.

Definition confirm_request (tk : token) (key : string) : request :=
  Post ("/api/projects/" +:+ projectId +:+ "/files/confirm")
       (ConfirmBody key) tk.

Definition upload_failed (file : File) : event :=
  EToastError ("Failed to upload " +:+ file_name file).

Definition advance (i : nat) (s : stage) (b : Batch) : Batch :=
  {| pipelines := <[i:=s]> (pipelines b);
     uploadedDocuments := uploadedDocuments b |}.

(** The [catch] block of a pipeline: a toast, and the pipeline is over. *)
Definition drop_item (i : nat) (file : File) (bw : Batch * World)
  : Batch * World :=
  (advance i Settled bw.1, log (upload_failed file) bw.2).

(** Pipeline [i] resumes from the [await] it is suspended at. *)
Definition resume (tk : token) (files : list File) (bw : Batch * World)
    (i : nat) : Batch * World :=
  match pipelines bw.1 !! i, files !! i with
  | Some AwaitReserve, Some file =>
      match post_upload_url env i (reserve_request tk file) with
      | Fulfilled target =>
          (advance i (AwaitTransfer target) bw.1,
           log (ERemote (transfer_request target file)) bw.2)
      | Rejected => drop_item i file bw
      | Pending => bw
      end
  | Some (AwaitTransfer target), Some file =>
      match put_s3 env i (transfer_request target file) with
      | Fulfilled _ =>
          (advance i (AwaitConfirm (s3_key target)) bw.1,
           log (ERemote (confirm_request tk (s3_key target))) bw.2)
      | Rejected => drop_item i file bw
      | Pending => bw
      end
  | Some (AwaitConfirm key), Some file =>
      match post_confirm env i (confirm_request tk key) with
      | Fulfilled updatedDocument =>
          ({| pipelines := <[i:=Settled]> (pipelines bw.1);
              uploadedDocuments :=
                uploadedDocuments bw.1 ++ [updatedDocument] |},
           bw.2)
      | Rejected => drop_item i file bw
      | Pending => bw
      end
  | _, _ => bw
  end.

(** [files.map(...)]: every pipeline is created and suspended at step 1. *)
Definition start_uploads (tk : token) (files : list File) (w : World)
  : Batch * World :=
  ({| pipelines := (λ _, AwaitReserve) <$> files; uploadedDocuments := [] |},
   foldl (λ w file, log (ERemote (reserve_request tk file)) w) w files).

Definition run_uploads (tk : token) (files : list File)
    (schedule : list nat) (w : World) : Batch * World :=
  foldl (resume tk files) (start_uploads tk files w) schedule.

Definition all_settled (b : Batch) : bool :=
  forallb (λ s, match s with Settled => true | _ => false end) (pipelines b).

(** [await Promise.allSettled(uploadPromises)]: the handler goes on once
    every pipeline is over, and waits for ever otherwise. *)
Definition Promise_allSettled (tk : token) (files : list File)
    (schedule : list nat) : M (list ProjectDocument) := λ w,
  let bw := run_uploads tk files schedule w in
  if all_settled bw.1 then (Fulfilled (uploadedDocuments bw.1), bw.2)
  else (Pending, bw.2).

Definition handleDocumentUpload (files : list File) (schedule : list nat)
  : M unit :=
  if falsy userId then mret tt else
  tk ← call_getToken;
  uploadedDocuments ← Promise_allSettled tk files schedule;
  if bool_decide (0 < length uploadedDocuments) then
    setData (prepend_documents uploadedDocuments);;
    toast_success (pretty (length uploadedDocuments) +:+ " file(s) uploaded")
  else mret tt.

(** What the three calls of pipeline [i] amount to, taken on their own. *)
Definition pipeline_result (tk : token) (i : nat) (file : File)
  : outcome ProjectDocument :=
  match post_upload_url env i (reserve_request tk file) with
  | Fulfilled target =>
      match put_s3 env i (transfer_request target file) with
      | Fulfilled _ =>
          post_confirm env i (confirm_request tk (s3_key target))
      | Rejected => Rejected
      | Pending => Pending
      end
  | Rejected => Rejected
  | Pending => Pending
  end.

End Handlers.

(** ** Reading a trace *)

(** The snapshots installed by the [setData] calls of a piece of trace. *)
Definition set_data_values (evs : list event) : list ProjectData :=
  omap (λ e, match e with ESetData d => Some d | _ => None end) evs.

Definition remote_calls (evs : list event) : list request :=
  omap (λ e, match e with ERemote r => Some r | _ => None end) evs.

Definition error_toasts (evs : list event) : list string :=
  omap (λ e, match e with EToastError msg => Some msg | _ => None end) evs.

Definition chat_ids (d : ProjectData) : list string := chat_id <$> chats d.
Definition document_ids (d : ProjectData) : list string :=
  doc_id <$> documents d.

(** ** Operations and what can be said of a snapshot *)

(** The operations the page hands to its children, and the initial load. *)
Inductive operation :=
| LoadAllData
| CreateNewChat
| DeleteChat (chatId : string)
| DocumentUpload (files : list File) (schedule : list nat)
| DocumentDelete (documentId : string)
| UrlAdd (url : string)
| DraftSettings (updates : ProjectSettings)
| PublishSettings (data : ProjectData).

Definition perform (userId : option string) (projectId : string)
    (env : Backend) (op : operation) : M unit :=
  match op with
  | LoadAllData => loadAllData userId projectId env
  | CreateNewChat => handleCreateNewChat userId projectId env
  | DeleteChat chatId => handleDeleteChat userId env chatId
  | DocumentUpload files schedule =>
      handleDocumentUpload userId projectId env files schedule
  | DocumentDelete documentId =>
      handleDocumentDelete userId projectId env documentId
  | UrlAdd url => handleUrlAdd userId projectId env url
  | DraftSettings updates => handleDraftSettings updates
  | PublishSettings data => handlePublishSettings userId projectId env data
  end.

(** An operation run from [w] fails when its promise is rejected or when it
    shows an error toast. *)
Definition failure_reported (w : World) (r : outcome unit * World) : bool :=
  match r.1 with
  | Rejected => true
  | _ => bool_decide (error_toasts (drop (length (trace w)) (trace r.2)) ≠ [])
  end.


(** ** Reading a batch of uploads

    The notions used to state what a batch does: what a pipeline has learnt
    at each point, what it has pushed and shown once it is over, and the
    invariant that ties the running batch to the answers of the backend. *)

Section UploadModel.
Context (projectId : string) (env : Backend) (tk : token)
        (files : list File).

(** What a suspended pipeline knows about its earlier calls. *)
Definition consistent (i : nat) (file : File) (s : stage) : Prop :=
  match s with
  | AwaitReserve => True
  | AwaitTransfer target =>
      post_upload_url env i (reserve_request projectId tk file)
      = Fulfilled target
  | AwaitConfirm key =>
      ∃ target,
        post_upload_url env i (reserve_request projectId tk file)
        = Fulfilled target ∧
        put_s3 env i (transfer_request target file) = Fulfilled tt ∧
        key = s3_key target
  | Settled => pipeline_result projectId env tk i file ≠ Pending
  end.

(** The document, if any, that pipeline [i] has pushed once it is over. *)
Definition pushed (i : nat) (s : option stage) : list ProjectDocument :=
  match s, files !! i with
  | Some Settled, Some file =>
      match pipeline_result projectId env tk i file with
      | Fulfilled d => [d]
      | _ => []
      end
  | _, _ => []
  end.

(** The toast, if any, that pipeline [i] has shown once it is over. *)
Definition toasted (i : nat) (s : option stage) : list string :=
  match s, files !! i with
  | Some Settled, Some file =>
      match pipeline_result projectId env tk i file with
      | Rejected => ["Failed to upload " +:+ file_name file]
      | _ => []
      end
  | _, _ => []
  end.

Definition gather {A} (g : nat → option stage → list A) (ps : list stage)
  : list A :=
  flat_map (λ i, g i (ps !! i)) (seq 0 (length files)).

(** The documents of the pipelines whose three calls succeed, in file
    order: each entry depends on the calls of its own pipeline only. *)
Definition confirmed_documents : list ProjectDocument :=
  gather pushed ((λ _, Settled) <$> files).

Definition failed_uploads : list string :=
  gather toasted ((λ _, Settled) <$> files).

(** The invariant of a running batch started in world [w0]. *)
Record upload_inv (w0 : World) (bw : Batch * World) : Prop := {
  inv_length : length (pipelines bw.1) = length files;
  inv_consistent : ∀ i s file,
    pipelines bw.1 !! i = Some s → files !! i = Some file →
    consistent i file s;
  inv_pushed : uploadedDocuments bw.1 ≡ₚ gather pushed (pipelines bw.1);
  inv_data : st_data bw.2 = st_data w0;
  inv_trace : ∃ evs,
    trace bw.2 = trace w0 ++ evs ∧
    error_toasts evs ≡ₚ gather toasted (pipelines bw.1) ∧
    set_data_values evs = [];
}.

(** The number of calls a pipeline still has to hear from. *)
Definition steps_left (s : stage) : nat :=
  match s with
  | AwaitReserve => 3
  | AwaitTransfer _ => 2
  | AwaitConfirm _ => 1
  | Settled => 0
  end.

Definition none_pending : Prop :=
  ∀ i file, files !! i = Some file →
            pipeline_result projectId env tk i file ≠ Pending.

(** A schedule that serves every pipeline three times, round robin. *)
Definition round_robin : list nat :=
  seq 0 (length files) ++ seq 0 (length files) ++ seq 0 (length files).

(** The three stages of a pipeline. *)
Inductive upload_stage := Reserve | Transfer | Confirm.

(** Item [i] gets through the stages before [st] and is rejected at [st]. *)
Definition fails_at (st : upload_stage) (i : nat) (file : File) : Prop :=
  match st with
  | Reserve =>
      post_upload_url env i (reserve_request projectId tk file) = Rejected
  | Transfer =>
      ∃ target,
        post_upload_url env i (reserve_request projectId tk file)
        = Fulfilled target ∧
        put_s3 env i (transfer_request target file) = Rejected
  | Confirm =>
      ∃ target,
        post_upload_url env i (reserve_request projectId tk file)
        = Fulfilled target ∧
        put_s3 env i (transfer_request target file) = Fulfilled tt ∧
        post_confirm env i (confirm_request projectId tk (s3_key target))
        = Rejected
  end.

(** Item [i] completes the three stages and the server answers [d]. *)
Definition completes (i : nat) (file : File) (d : ProjectDocument) : Prop :=
  ∃ target,
    post_upload_url env i (reserve_request projectId tk file)
    = Fulfilled target ∧
    put_s3 env i (transfer_request target file) = Fulfilled tt ∧
    post_confirm env i (confirm_request projectId tk (s3_key target))
    = Fulfilled d.

End UploadModel.

(** ** What the page renders

    The component returns a spinner while [loading] is set, the not-found
    screen when there is no project, and otherwise the two panels with
    their props and, when a document is selected and found, the details
    modal.  [activeTab] and [selectedDocumentId] are the two remaining
    [useState] cells of the component. *)

Inductive Tab := DocumentsTab | SettingsTab.

Record UiState := {
  activeTab : Tab;
  selectedDocumentId : option string;
}.

Record ConversationsListProps := {
  cl_project : Project;
  cl_conversations : list Chat;
  cl_error : option string;
  cl_loading : bool;
}.

Record KnowledgeBaseSidebarProps := {
  kb_activeTab : Tab;
  kb_projectDocuments : list ProjectDocument;
  kb_projectSettings : option ProjectSettings;
  kb_settingsError : option string;
  kb_settingsLoading : bool;
}.

Inductive view :=
| LoadingSpinner (message : string)
| NotFound (message : string)
| Page (conversations : ConversationsListProps)
       (sidebar : KnowledgeBaseSidebarProps)
       (modal : option ProjectDocument).

(** [selectedDocumentId
      ? data.documents.find((doc) => doc.id == selectedDocumentId) : null] *)
Definition selectedDocument (selectedDocumentId : option string)
    (data : ProjectData) : option ProjectDocument :=
  if falsy selectedDocumentId then None
  else find (λ doc, bool_decide (Some (doc_id doc) = selectedDocumentId))
            (documents data).

Definition render (w : World) (ui : UiState) : view :=
  if st_loading w then LoadingSpinner "Loading project..."
  else match project (st_data w) with
       | None => NotFound "Project not found"
       | Some p =>
           Page {| cl_project := p;
                   cl_conversations := chats (st_data w);
                   cl_error := st_error w;
                   cl_loading := st_isCreatingChat w |}
                {| kb_activeTab := activeTab ui;
                   kb_projectDocuments := documents (st_data w);
                   kb_projectSettings := settings (st_data w);
                   kb_settingsError := None;
                   kb_settingsLoading := false |}
                (selectedDocument (selectedDocumentId ui) (st_data w))
       end.

(** ** More ways to read a trace and an outcome *)

Definition success_toasts (evs : list event) : list string :=
  omap (λ e, match e with EToastSuccess msg => Some msg | _ => None end) evs.

Definition is_fulfilled {A} (o : outcome A) : bool :=
  match o with Fulfilled _ => true | _ => false end.

Definition is_rejected {A} (o : outcome A) : bool :=
  match o with Rejected => true | _ => false end.

Definition is_pending {A} (o : outcome A) : bool :=
  match o with Pending => true | _ => false end.

(** The calls a suspended pipeline may still issue. *)
Definition calls_left (s : stage) : nat :=
  match s with
  | AwaitReserve => 2
  | AwaitTransfer _ => 1
  | AwaitConfirm _ | Settled => 0
  end.

Section BatchEvents.
Context (projectId : string) (env : Backend) (tk : token)
        (files : list File).

(** The events a resumed pipeline may add to the trace, each with the
    answers of the backend that lead to it. *)
Definition batch_event (e : event) : Prop :=
  (∃ i file, files !! i = Some file ∧
     pipeline_result projectId env tk i file = Rejected ∧
     e = upload_failed file) ∨
  (∃ i file target, files !! i = Some file ∧
     post_upload_url env i (reserve_request projectId tk file)
     = Fulfilled target ∧
     e = ERemote (transfer_request target file)) ∨
  (∃ i file target, files !! i = Some file ∧
     post_upload_url env i (reserve_request projectId tk file)
     = Fulfilled target ∧
     put_s3 env i (transfer_request target file) = Fulfilled tt ∧
     e = ERemote (confirm_request projectId tk (s3_key target))).

(** The state of a batch after a piece of schedule, seen from the state
    before it: the events added are events of the pipelines, and each call
    issued is paid for by a call the pipelines no longer have to make. *)
Definition batch_progress (bw bw' : Batch * World) : Prop :=
  ∃ evs,
    trace bw'.2 = trace bw.2 ++ evs ∧
    Forall batch_event evs ∧
    (length (remote_calls evs) + sum_list (calls_left <$> pipelines bw'.1)
     ≤ sum_list (calls_left <$> pipelines bw.1))%nat.

End BatchEvents.

(** ** A sample session, used to run the handlers *)

Definition chat1 : Chat :=
  {| chat_id := "c1"; chat_title := "Chat #6789"; chat_project_id := "p1" |}.
Definition chat2 : Chat :=
  {| chat_id := "c2"; chat_title := "Chat #12"; chat_project_id := "p1" |}.

Definition document_of (i : nat) : ProjectDocument :=
  {| doc_id := "d" +:+ pretty i; doc_source_type := UploadedFile;
     doc_status := "processing" |}.

Definition website : ProjectDocument :=
  {| doc_id := "w1"; doc_source_type := UrlSourced; doc_status := "queued" |}.

Definition fileA : File :=
  {| file_name := "a.pdf"; file_size := 10; file_type := "application/pdf";
     file_bytes := [37%N; 80%N; 68%N; 70%N] |}.
Definition fileB : File :=
  {| file_name := "b.pdf"; file_size := 20; file_type := "application/pdf";
     file_bytes := [37%N; 80%N] |}.
Definition fileC : File :=
  {| file_name := "c.txt"; file_size := 3; file_type := "text/plain";
     file_bytes := [104%N; 105%N; 10%N] |}.

Definition formal : ProjectSettings := {[ "tone" := JStr "formal" ]}.
Definition casual : ProjectSettings := {[ "tone" := JStr "casual" ]}.

(** A backend where everything works, except that the upload-url request
    of the second file of a batch is refused. *)
Definition good_backend : Backend := {|
  getToken := Fulfilled (Some "jwt");
  get_project := λ _, Fulfilled (Some {| project_id := "p1" |});
  get_chats := λ _, Fulfilled [chat1; chat2];
  get_files := λ _, Fulfilled [];
  get_settings := λ _, Fulfilled (Some formal);
  post_chat := λ _, Fulfilled chat1;
  delete_any := λ _, Fulfilled tt;
  post_upload_url := λ i _,
    if decide (i = 1) then Rejected
    else Fulfilled {| upload_url := "https://s3/" +:+ pretty i;
                      s3_key := "k" +:+ pretty i |};
  put_s3 := λ _ _, Fulfilled tt;
  post_confirm := λ i _, Fulfilled (document_of i);
  post_url := λ _, Fulfilled website;
  put_settings := λ r,
    match r with Put _ s _ => Fulfilled (Some s) | _ => Rejected end;
  now := 1730566789;
|}.

(** A backend in trouble: the token is still delivered, the read of the
    chats is rejected, the read of the settings never answers, and every
    write is rejected. *)
Definition failing_backend : Backend := {|
  getToken := Fulfilled (Some "jwt");
  get_project := λ _, Fulfilled (Some {| project_id := "p1" |});
  get_chats := λ _, Rejected;
  get_files := λ _, Fulfilled [];
  get_settings := λ _, Pending;
  post_chat := λ _, Rejected;
  delete_any := λ _, Rejected;
  post_upload_url := λ _ _, Rejected;
  put_s3 := λ _ _, Rejected;
  post_confirm := λ _ _, Rejected;
  post_url := λ _, Rejected;
  put_settings := λ _, Rejected;
  now := 1730566789;
|}.

Definition loaded_data : ProjectData :=
  {| project := Some {| project_id := "p1" |}; chats := [chat1; chat2];
     documents := []; settings := Some formal |}.

Definition loaded_world : World :=
  {| st_data := loaded_data; st_loading := false; st_error := None;
     st_isCreatingChat := false; trace := [] |}.

(** ** Proof tools *)

Ltac run_handler :=
  repeat (cbv [mbind mret M_bind M_ret try_catch try_catch_finally await emit
               call_getToken setData setDataWith setLoading setError
               setIsCreatingChat toast_error toast_success console_warn
               Promise_all4 log] in *; cbn [fst snd st_data st_loading st_error
               st_isCreatingChat trace] in * ).

Lemma world_eta (w : World) :
  {| st_data := st_data w; st_loading := st_loading w; st_error := st_error w;
     st_isCreatingChat := st_isCreatingChat w; trace := trace w |} = w.
Proof. by destruct w. Qed.

Lemma filter_absent {A} (key : A → string) (x : string) (l : list A) :
  x ∉ key <$> l → filter (λ a, key a ≠ x) l = l.
Proof.
  induction l as [|a l IH]; [done|].
  rewrite fmap_cons, not_elem_of_cons. intros [Hne Hl].
  rewrite filter_cons_True by done. by rewrite IH.
Qed.

Lemma remove_chat_absent chatId d :
  chatId ∉ chat_ids d → remove_chat chatId d = d.
Proof.
  intros H. destruct d as [p c ds s]. unfold remove_chat; cbn.
  by rewrite (filter_absent chat_id).
Qed.

Lemma remove_document_absent documentId d :
  documentId ∉ document_ids d → remove_document documentId d = d.
Proof.
  intros H. destruct d as [p c ds s]. unfold remove_document; cbn.
  by rewrite (filter_absent doc_id).
Qed.

(** ** The load *)

(** C1. Atomic load: once the four reads have been issued, the snapshot is
    replaced by the four results when all four succeed, and is left at its
    prior value in every other combination; the only snapshot the load ever
    installs is the full one. *)
Theorem loadAllData_atomic userId projectId env tk (w : World) :
  falsy userId = false →
  getToken env = Fulfilled tk →
  let r1 := Get ("/api/projects/" +:+ projectId) tk in
  let r2 := Get ("/api/projects/" +:+ projectId +:+ "/chats") tk in
  let r3 := Get ("/api/projects/" +:+ projectId +:+ "/files") tk in
  let r4 := Get ("/api/projects/" +:+ projectId +:+ "/settings") tk in
  let w' := (loadAllData userId projectId env w).2 in
  ∃ evs, trace w' = trace w ++ evs ∧
    remote_calls evs = [r1; r2; r3; r4] ∧
    match get_project env r1, get_chats env r2,
          get_files env r3, get_settings env r4 with
    | Fulfilled p, Fulfilled c, Fulfilled d, Fulfilled s =>
        let full := {| project := p; chats := c;
                       documents := d; settings := s |} in
        st_data w' = full ∧ set_data_values evs = [full]
    | _, _, _, _ =>
        st_data w' = st_data w ∧ set_data_values evs = []
    end.
Proof.
  intros Hu Htk r1 r2 r3 r4. unfold loadAllData. rewrite Hu.
  run_handler. rewrite Htk. fold r1 r2 r3 r4.
  destruct (get_project env r1), (get_chats env r2),
    (get_files env r3), (get_settings env r4); cbn;
    eexists; (split; [rewrite <- !(assoc_L (++)); reflexivity|]); done.
Qed.

Lemma loadAllData_atomic_witness :
  st_data (loadAllData (Some "user_1") "p1" good_backend initial_world).2
    = loaded_data
  ∧ st_data (loadAllData (Some "user_1") "p1" failing_backend initial_world).2
    = initial_data.
Proof.
  split.
  - destruct (loadAllData_atomic (Some "user_1") "p1" good_backend
                (Some "jwt") initial_world eq_refl eq_refl)
      as (evs & _ & _ & H).
    cbn in H. apply H.
  - destruct (loadAllData_atomic (Some "user_1") "p1" failing_backend
                (Some "jwt") initial_world eq_refl eq_refl)
      as (evs & _ & _ & H).
    cbn in H. apply H.
Defined.

(** ** Conversations *)

(** C6. Insertion ordering: after a successful create, the chat returned by
    the server is the first element of the sequence and the prior sequence
    follows it, as it was. *)
Theorem handleCreateNewChat_prepends userId projectId env tk savedChat
    (w : World) :
  falsy userId = false →
  getToken env = Fulfilled tk →
  post_chat env
    (Post "/api/chats"
       (ChatBody ("Chat #" +:+ pretty (now env mod 10000)%N) projectId) tk)
    = Fulfilled savedChat →
  let r := handleCreateNewChat userId projectId env w in
  r.1 = Fulfilled tt ∧
  chats (st_data r.2) = savedChat :: chats (st_data w) ∧
  head (chats (st_data r.2)) = Some savedChat ∧
  tail (chats (st_data r.2)) = chats (st_data w).
Proof.
  intros Hu Htk Hpost. unfold handleCreateNewChat. rewrite Hu.
  run_handler. rewrite Htk, Hpost. cbn. done.
Qed.

Lemma handleCreateNewChat_prepends_witness :
  chats (st_data
           (handleCreateNewChat (Some "user_1") "p1" good_backend
              loaded_world).2)
  = [chat1; chat1; chat2].
Proof.
  apply (handleCreateNewChat_prepends (Some "user_1") "p1" good_backend
           (Some "jwt") chat1 loaded_world eq_refl eq_refl eq_refl).
Defined.

(** C7. Deleting an id that is not in the sequence: once the remote delete
    has succeeded, the filter leaves the snapshot exactly as it was, the
    handler ends normally and reports no error.  This holds for the chats
    and for the documents. *)
Theorem delete_absent_id_unchanged userId projectId env tk id (w : World) :
  falsy userId = false →
  getToken env = Fulfilled tk →
  (id ∉ chat_ids (st_data w) →
   delete_any env (Delete ("/api/chats/" +:+ id) tk) = Fulfilled tt →
   let r := handleDeleteChat userId env id w in
   r.1 = Fulfilled tt ∧ st_data r.2 = st_data w ∧
   ∃ evs, trace r.2 = trace w ++ evs ∧ error_toasts evs = [])
  ∧
  (id ∉ document_ids (st_data w) →
   delete_any env
     (Delete ("/api/projects/" +:+ projectId +:+ "/files/" +:+ id) tk)
     = Fulfilled tt →
   let r := handleDocumentDelete userId projectId env id w in
   r.1 = Fulfilled tt ∧ st_data r.2 = st_data w ∧
   ∃ evs, trace r.2 = trace w ++ evs ∧ error_toasts evs = []).
Proof.
  intros Hu Htk. split; intros Hid Hdel.
  - unfold handleDeleteChat. rewrite Hu. run_handler. rewrite Htk, Hdel. cbn.
    rewrite remove_chat_absent by done. repeat split.
    eexists. split; [rewrite <- !(assoc_L (++)); reflexivity|done].
  - unfold handleDocumentDelete. rewrite Hu. run_handler.
    rewrite Htk, Hdel. cbn.
    rewrite remove_document_absent by done. repeat split.
    eexists. split; [rewrite <- !(assoc_L (++)); reflexivity|done].
Qed.

Lemma delete_absent_id_unchanged_witness :
  st_data (handleDeleteChat (Some "user_1") good_backend "c9" loaded_world).2
    = loaded_data
  ∧ st_data (handleDocumentDelete (Some "user_1") "p1" good_backend "c9"
               loaded_world).2
    = loaded_data.
Proof.
  destruct (delete_absent_id_unchanged (Some "user_1") "p1" good_backend
              (Some "jwt") "c9" loaded_world eq_refl eq_refl) as [Hc Hd].
  split.
  - apply Hc; [|reflexivity]. by apply (bool_decide_unpack _).
  - apply Hd; [|reflexivity]. by apply (bool_decide_unpack _).
Defined.

(** ** Settings *)

(** C3. Publish rollback-safety: when the remote publish call is rejected,
    the snapshot, and so its settings, is exactly the one held before the
    call, and the failure is reported by a toast. *)
Theorem handlePublishSettings_failure userId projectId env data tk s
    (w : World) :
  falsy userId = false →
  settings data = Some s →
  getToken env = Fulfilled tk →
  put_settings env
    (Put ("/api/projects/" +:+ projectId +:+ "/settings") s tk) = Rejected →
  let r := handlePublishSettings userId projectId env data w in
  r.1 = Fulfilled tt ∧
  st_data r.2 = st_data w ∧
  settings (st_data r.2) = settings (st_data w) ∧
  trace r.2 = trace w ++
    [EGetToken;
     ERemote (Put ("/api/projects/" +:+ projectId +:+ "/settings") s tk);
     EToastError "Failed to save settings!"].
Proof.
  intros Hu Hs Htk Hput. unfold handlePublishSettings. rewrite Hu, Hs.
  run_handler. rewrite Htk, Hput. cbn.
  by rewrite <- !(assoc_L (++)).
Qed.

Lemma handlePublishSettings_failure_witness :
  settings (st_data
    (handlePublishSettings (Some "user_1") "p1" failing_backend loaded_data
       loaded_world).2) = Some formal.
Proof.
  apply (handlePublishSettings_failure (Some "user_1") "p1" failing_backend
           loaded_data (Some "jwt") formal loaded_world
           eq_refl eq_refl eq_refl eq_refl).
Defined.

(** C4. Publish guard: with no settings loaded, publish reports a failure
    at once; nothing else happens, so no remote call is issued and the
    snapshot is unchanged. *)
Theorem handlePublishSettings_guard userId projectId env data (w : World) :
  settings data = None →
  let r := handlePublishSettings userId projectId env data w in
  r.1 = Fulfilled tt ∧
  st_data r.2 = st_data w ∧
  ∃ evs, trace r.2 = trace w ++ evs ∧
         evs = [EToastError "Cannot save settings"] ∧
         remote_calls evs = [].
Proof.
  intros Hs. unfold handlePublishSettings. rewrite Hs.
  destruct (falsy userId); cbn; (split; [done|]); (split; [done|]);
    by eexists.
Qed.

Lemma handlePublishSettings_guard_witness :
  settings initial_data = None ∧
  trace (handlePublishSettings (Some "user_1") "p1" good_backend initial_data
           initial_world).2
  = [EToastError "Cannot save settings"].
Proof.
  split; [reflexivity|].
  destruct (handlePublishSettings_guard (Some "user_1") "p1" good_backend
              initial_data initial_world eq_refl)
    as (_ & _ & evs & Ht & -> & _).
  exact Ht.
Defined.

(** The scenario of the spec: load project "p1" (settings with a formal
    tone), draft a casual tone, publish; the server echoes what it was sent
    and the local settings are the echoed object. *)
Example scenario_load_draft_publish :
  let w1 := (loadAllData (Some "user_1") "p1" good_backend initial_world).2 in
  let w2 := (handleDraftSettings casual w1).2 in
  let w3 := (handlePublishSettings (Some "user_1") "p1" good_backend
               (st_data w2) w2).2 in
  settings (st_data w1) = Some formal ∧
  settings (st_data w2) = Some casual ∧
  remote_calls (drop (length (trace w1)) (trace w2)) = [] ∧
  settings (st_data w3) = Some casual.
Proof. cbv zeta. repeat split; vm_compute; reflexivity. Qed.

(** C5. Draft absorption and merge: the draft operation never fails and
    makes no remote call.  With no settings loaded it leaves the snapshot as
    it is (settings stay null).  With settings loaded it keeps project,
    chats and documents, and the new settings read, at every key, the update
    when the update names the key and the former value otherwise. *)
Theorem handleDraftSettings_spec updates (w : World) :
  let r := handleDraftSettings updates w in
  r.1 = Fulfilled tt ∧
  (∃ evs, trace r.2 = trace w ++ evs ∧
          error_toasts evs = [] ∧ remote_calls evs = []) ∧
  match settings (st_data w) with
  | None => st_data r.2 = st_data w ∧ settings (st_data r.2) = None
  | Some s =>
      ∃ s' : ProjectSettings,
        st_data r.2 = replace_settings (Some s') (st_data w) ∧
        ∀ k, s' !! k = match updates !! k with
                       | Some v => Some v
                       | None => s !! k
                       end
  end.
Proof.
  unfold handleDraftSettings. run_handler.
  destruct (settings (st_data w)) as [s|] eqn:Hs; cbn.
  - split; [done|]. split.
    + eexists. split; [reflexivity|done].
    + exists (spread s updates). split; [done|].
      intros k. unfold spread. rewrite lookup_union.
      destruct (updates !! k), (s !! k); done.
  - split; [done|]. split.
    + eexists. split; [rewrite <- !(assoc_L (++)); reflexivity|done].
    + done.
Qed.

(** ** The identity guard *)

(** C10. With no caller identity, the create-chat, delete-chat, upload,
    delete-document and add-from-url handlers return at once: the world is
    the one they were called in, so no remote call was issued, the snapshot
    is unchanged and nothing was reported. *)
Theorem handlers_return_without_identity userId projectId env (w : World) :
  falsy userId = true →
  handleCreateNewChat userId projectId env w = (Fulfilled tt, w) ∧
  (∀ chatId, handleDeleteChat userId env chatId w = (Fulfilled tt, w)) ∧
  (∀ files schedule,
     handleDocumentUpload userId projectId env files schedule w
     = (Fulfilled tt, w)) ∧
  (∀ documentId,
     handleDocumentDelete userId projectId env documentId w
     = (Fulfilled tt, w)) ∧
  (∀ url, handleUrlAdd userId projectId env url w = (Fulfilled tt, w)).
Proof.
  intros Hu.
  unfold handleCreateNewChat, handleDeleteChat, handleDocumentUpload,
    handleDocumentDelete, handleUrlAdd.
  rewrite Hu. done.
Qed.

Lemma handlers_return_without_identity_witness :
  falsy (Some "") = true ∧
  handleCreateNewChat (Some "") "p1" good_backend loaded_world
  = (Fulfilled tt, loaded_world).
Proof.
  split; [reflexivity|].
  apply (handlers_return_without_identity (Some "") "p1" good_backend
           loaded_world eq_refl).
Defined.

(** C9, as stated, fails: without an identity, creating a chat ends normally
    and reports no error of any kind. *)
Lemma create_without_identity_reports_nothing :
  falsy None = true ∧
  failure_reported loaded_world
    (perform None "p1" good_backend CreateNewChat loaded_world) = false.
Proof. split; reflexivity. Qed.

(** C9, amended.  With no caller identity every operation ends normally
    without a remote call.  Publish reports the failure "Cannot save
    settings"; no other operation reports anything.  Every operation but
    the draft leaves the snapshot unchanged (the draft does not look at the
    identity). *)
Theorem no_identity_no_remote_call userId projectId env op (w : World) :
  falsy userId = true →
  let r := perform userId projectId env op w in
  r.1 = Fulfilled tt ∧
  (∃ evs, trace r.2 = trace w ++ evs ∧
     remote_calls evs = [] ∧
     error_toasts evs = match op with
                        | PublishSettings _ => ["Cannot save settings"]
                        | _ => []
                        end) ∧
  match op with
  | DraftSettings _ => True
  | _ => st_data r.2 = st_data w
  end.
Proof.
  intros Hu.
  destruct op; cbn [perform];
    try (unfold loadAllData, handleCreateNewChat, handleDeleteChat,
           handleDocumentUpload, handleDocumentDelete, handleUrlAdd;
         rewrite Hu; cbn; split; [done|]; split; [|done];
         exists []; by rewrite app_nil_r).
  - unfold handleDraftSettings. run_handler.
    destruct (settings (st_data w)); cbn; (split; [done|]); (split; [|done]);
      eexists; (split; [rewrite <- ?(assoc_L (++)); reflexivity|done]).
  - unfold handlePublishSettings. rewrite Hu. cbn.
    split; [done|]. split; [|done]. by eexists.
Qed.

Lemma no_identity_no_remote_call_witness :
  error_toasts (trace (perform None "p1" good_backend
                         (PublishSettings loaded_data) loaded_world).2)
  = ["Cannot save settings"].
Proof.
  destruct (no_identity_no_remote_call None "p1" good_backend
              (PublishSettings loaded_data) loaded_world eq_refl)
    as (_ & (evs & Ht & _ & He) & _).
  rewrite Ht. exact He.
Defined.

(** ** The upload pipeline *)

Lemma flat_map_ext_elem {A B} (f g : A → list B) (l : list A) :
  (∀ a, a ∈ l → f a = g a) → flat_map f l = flat_map g l.
Proof.
  induction l as [|a l IH]; [done|]. intros H. cbn.
  rewrite (H a) by left. rewrite IH; [done|]. intros b Hb. apply H. by right.
Qed.

Section Upload.
Context (projectId : string) (env : Backend) (tk : token)
        (files : list File).

Local Abbreviation consistent := (consistent projectId env tk).
Local Abbreviation pushed := (pushed projectId env tk files).
Local Abbreviation toasted := (toasted projectId env tk files).
Local Abbreviation gather := (gather files).
Local Abbreviation confirmed_documents :=
  (confirmed_documents projectId env tk files).
Local Abbreviation failed_uploads := (failed_uploads projectId env tk files).
Local Abbreviation upload_inv := (upload_inv projectId env tk files).
Local Abbreviation inv_length := (inv_length projectId env tk files).
Local Abbreviation inv_consistent :=
  (inv_consistent projectId env tk files).
Local Abbreviation none_pending := (none_pending projectId env tk files).
Local Abbreviation round_robin := (round_robin files).
Local Abbreviation fails_at := (fails_at projectId env tk).
Local Abbreviation completes := (completes projectId env tk).

Lemma flat_map_insert {A} (g : nat → option stage → list A)
    (ps : list stage) (i : nat) (s s' : stage) (l : list nat) :
  NoDup l → ps !! i = Some s → g i (Some s) = [] →
  flat_map (λ j, g j (<[i:=s']> ps !! j)) l
  ≡ₚ (if decide (i ∈ l) then g i (Some s') else [])
      ++ flat_map (λ j, g j (ps !! j)) l.
Proof.
  intros Hnd Hi Hg. induction l as [|j l IH]; [done|].
  apply NoDup_cons in Hnd as [Hj Hnd]. specialize (IH Hnd). cbn [flat_map].
  destruct (decide (j = i)) as [->|Hne].
  - rewrite list_lookup_insert_eq by (by eapply lookup_lt_Some).
    rewrite decide_True by left. rewrite decide_False in IH by done.
    rewrite IH, Hi, Hg. done.
  - rewrite list_lookup_insert_ne by done. rewrite IH.
    destruct (decide (i ∈ l)) as [Hin|Hnin].
    + rewrite decide_True by (by right).
      by rewrite !(assoc (++)), (Permutation_app_comm (g j _)).
    + rewrite decide_False; [done|]. by intros [?|?]%elem_of_cons.
Qed.

Lemma gather_insert {A} (g : nat → option stage → list A)
    (ps : list stage) (i : nat) (s s' : stage) :
  i < length files → ps !! i = Some s → g i (Some s) = [] →
  gather g (<[i:=s']> ps) ≡ₚ g i (Some s') ++ gather g ps.
Proof.
  intros Hlt Hi Hg. unfold gather.
  rewrite (flat_map_insert g ps i s s') by (done || apply NoDup_seq).
  rewrite decide_True; [done|]. apply elem_of_seq. lia.
Qed.

Lemma error_toasts_snoc evs e :
  error_toasts (evs ++ [e])
  = error_toasts evs ++ match e with EToastError m => [m] | _ => [] end.
Proof.
  unfold error_toasts. rewrite omap_app. cbn.
  destruct e; by rewrite ?app_nil_r.
Qed.

Lemma set_data_values_snoc evs e :
  set_data_values (evs ++ [e])
  = set_data_values evs ++ match e with ESetData d => [d] | _ => [] end.
Proof.
  unfold set_data_values. rewrite omap_app. cbn.
  destruct e; by rewrite ?app_nil_r.
Qed.

Lemma start_trace (w : World) :
  trace (start_uploads projectId tk files w).2
  = trace w
    ++ ((λ file, ERemote (reserve_request projectId tk file)) <$> files)
  ∧ st_data (start_uploads projectId tk files w).2 = st_data w.
Proof.
  unfold start_uploads. cbn [snd]. revert w.
  induction files as [|file fs IH]; intros w; cbn [foldl fmap list_fmap].
  - by rewrite app_nil_r.
  - destruct (IH (log (ERemote (reserve_request projectId tk file)) w))
      as [-> ->].
    cbn. by rewrite <- (assoc_L (++)).
Qed.

Lemma gather_nil {A} (g : nat → option stage → list A) (ps : list stage) :
  (∀ i, g i (ps !! i) = []) → gather g ps = [].
Proof.
  intros H. unfold gather. induction (seq 0 (length files)) as [|j l IH];
    [done|]. cbn. by rewrite H, IH.
Qed.

Lemma remote_only_trace {A} (f : A → request) (l : list A) :
  error_toasts ((λ a, ERemote (f a)) <$> l) = [] ∧
  set_data_values ((λ a, ERemote (f a)) <$> l) = [].
Proof. induction l as [|a l IH]; [done|]. cbn. apply IH. Qed.

Lemma upload_inv_start (w : World) :
  upload_inv w (start_uploads projectId tk files w).
Proof.
  destruct (start_trace w) as [Htr Hd].
  assert (Hlook : ∀ i s,
    ((λ _ : File, AwaitReserve) <$> files) !! i = Some s → s = AwaitReserve).
  { intros i s. rewrite list_lookup_fmap.
    destruct (files !! i); cbn; congruence. }
  split.
  - cbn. by rewrite length_fmap.
  - cbn. intros i s file Hs _. by rewrite (Hlook _ _ Hs).
  - cbn. rewrite gather_nil; [done|]. intros i. unfold pushed.
    destruct (_ !! i) as [s|] eqn:Hs; [|done]. by rewrite (Hlook _ _ Hs).
  - done.
  - eexists. split; [exact Htr|]. cbn.
    destruct (remote_only_trace (reserve_request projectId tk) files)
      as [-> ->].
    split; [|done]. rewrite gather_nil; [done|].
    intros i. unfold toasted.
    destruct (_ !! i) as [s|] eqn:Hs; [|done]. by rewrite (Hlook _ _ Hs).
Qed.

Lemma pushed_quiet i s : s ≠ Settled → pushed i (Some s) = [].
Proof. by destruct s. Qed.

Lemma toasted_quiet i s : s ≠ Settled → toasted i (Some s) = [].
Proof. by destruct s. Qed.

Lemma consistent_insert (ps : list stage) i s' file :
  files !! i = Some file → consistent i file s' →
  (∀ j s f, ps !! j = Some s → files !! j = Some f → consistent j f s) →
  ∀ j s f, <[i:=s']> ps !! j = Some s → files !! j = Some f →
           consistent j f s.
Proof.
  intros Hf Hc Hall j s f Hj Hfj.
  apply list_lookup_insert_Some in Hj as [(-> & -> & _)|[Hne Hj]].
  - by simplify_eq.
  - by eapply Hall.
Qed.

(** A pipeline moves on to its next call. *)
Lemma upload_inv_advance w0 bw i s s' file r :
  upload_inv w0 bw →
  pipelines bw.1 !! i = Some s → files !! i = Some file →
  s ≠ Settled → s' ≠ Settled → consistent i file s' →
  upload_inv w0 (advance i s' bw.1, log (ERemote r) bw.2).
Proof.
  intros [Hlen Hcons Hpush Hdata (evs & Htr & Htoast & Hset)]
    Hs Hf Hne Hne' Hc.
  assert (i < length files) by (by eapply lookup_lt_Some).
  split; cbn.
  - by rewrite length_insert.
  - by eapply consistent_insert.
  - rewrite (gather_insert pushed _ i s s') by auto using pushed_quiet.
    by rewrite pushed_quiet.
  - done.
  - exists (evs ++ [ERemote r]). rewrite Htr, (assoc_L (++)).
    rewrite error_toasts_snoc, set_data_values_snoc, !app_nil_r.
    rewrite (gather_insert toasted _ i s s') by auto using toasted_quiet.
    rewrite toasted_quiet by done. done.
Qed.

(** A call of a pipeline is rejected: the item is dropped with a toast. *)
Lemma upload_inv_drop w0 bw i s file :
  upload_inv w0 bw →
  pipelines bw.1 !! i = Some s → files !! i = Some file →
  s ≠ Settled → pipeline_result projectId env tk i file = Rejected →
  upload_inv w0 (drop_item i file bw).
Proof.
  intros [Hlen Hcons Hpush Hdata (evs & Htr & Htoast & Hset)]
    Hs Hf Hne Hres.
  assert (i < length files) by (by eapply lookup_lt_Some).
  split; cbn.
  - by rewrite length_insert.
  - eapply consistent_insert; [done| |done]. cbn. by rewrite Hres.
  - rewrite (gather_insert pushed _ i s Settled)
      by auto using pushed_quiet.
    unfold pushed at 1. by rewrite Hf, Hres.
  - done.
  - exists (evs ++ [upload_failed file]). rewrite Htr, (assoc_L (++)).
    rewrite error_toasts_snoc, set_data_values_snoc. cbn.
    rewrite app_nil_r.
    rewrite (gather_insert toasted _ i s Settled)
      by auto using toasted_quiet.
    unfold toasted at 1. rewrite Hf, Hres, Htoast.
    split; [done|]. split; [|done]. by rewrite Permutation_app_comm.
Qed.

(** The confirm call of a pipeline succeeds: its document is pushed. *)
Lemma upload_inv_push w0 bw i s file d :
  upload_inv w0 bw →
  pipelines bw.1 !! i = Some s → files !! i = Some file →
  s ≠ Settled → pipeline_result projectId env tk i file = Fulfilled d →
  upload_inv w0
    ({| pipelines := <[i:=Settled]> (pipelines bw.1);
        uploadedDocuments := uploadedDocuments bw.1 ++ [d] |}, bw.2).
Proof.
  intros [Hlen Hcons Hpush Hdata (evs & Htr & Htoast & Hset)]
    Hs Hf Hne Hres.
  assert (i < length files) by (by eapply lookup_lt_Some).
  split; cbn.
  - by rewrite length_insert.
  - eapply consistent_insert; [done| |done]. cbn. by rewrite Hres.
  - rewrite (gather_insert pushed _ i s Settled)
      by auto using pushed_quiet.
    unfold pushed at 1. rewrite Hf, Hres, Hpush.
    by rewrite Permutation_app_comm.
  - done.
  - exists evs. split; [done|]. split; [|done].
    rewrite (gather_insert toasted _ i s Settled)
      by auto using toasted_quiet.
    unfold toasted at 1. by rewrite Hf, Hres.
Qed.

Lemma upload_inv_resume w0 bw i :
  upload_inv w0 bw → upload_inv w0 (resume projectId env tk files bw i).
Proof.
  intros Hinv. unfold resume.
  destruct (pipelines bw.1 !! i) as [s|] eqn:Hs; [|by destruct bw].
  destruct (files !! i) as [file|] eqn:Hf; [|by destruct s, bw].
  pose proof (inv_consistent _ _ Hinv i s file Hs Hf) as Hc.
  destruct s as [|target|key|]; cbn in Hc.
  - destruct (post_upload_url env i _) as [target| |] eqn:Hr.
    + by eapply upload_inv_advance.
    + eapply upload_inv_drop; try done.
      unfold pipeline_result. by rewrite Hr.
    + by destruct bw.
  - destruct (put_s3 env i _) as [[]| |] eqn:Hp.
    + eapply upload_inv_advance; try done. cbn. eauto.
    + eapply upload_inv_drop; try done.
      unfold pipeline_result. by rewrite Hc, Hp.
    + by destruct bw.
  - destruct Hc as (target & Hr & Hp & ->).
    destruct (post_confirm env i _) as [d| |] eqn:Hd.
    + eapply upload_inv_push; try done.
      unfold pipeline_result. by rewrite Hr, Hp.
    + eapply upload_inv_drop; try done.
      unfold pipeline_result. by rewrite Hr, Hp.
    + by destruct bw.
  - by destruct bw.
Qed.

Lemma upload_inv_foldl w0 bw (l : list nat) :
  upload_inv w0 bw →
  upload_inv w0 (foldl (resume projectId env tk files) bw l).
Proof.
  revert bw. induction l as [|i l IH]; intros bw Hinv; [done|].
  cbn. by apply IH, upload_inv_resume.
Qed.

Lemma upload_inv_run w schedule :
  upload_inv w (run_uploads projectId env tk files schedule w).
Proof. apply upload_inv_foldl, upload_inv_start. Qed.

(** The pipelines advance the same way whatever the rest of the world. *)
Lemma resume_batch bw bw' i :
  bw.1 = bw'.1 →
  (resume projectId env tk files bw i).1
  = (resume projectId env tk files bw' i).1.
Proof.
  destruct bw as [b w], bw' as [b' w']. cbn. intros <-.
  unfold resume, drop_item. cbn. repeat case_match; done.
Qed.

Lemma run_uploads_batch schedule w w' :
  (run_uploads projectId env tk files schedule w).1
  = (run_uploads projectId env tk files schedule w').1.
Proof.
  unfold run_uploads.
  induction schedule as [|i sch IH] using rev_ind; [done|].
  rewrite !foldl_app. cbn. by apply resume_batch.
Qed.

Lemma all_settled_pipelines b :
  length (pipelines b) = length files → all_settled b = true →
  pipelines b = (λ _, Settled) <$> files.
Proof.
  intros Hlen Hall. apply list_eq. intros i.
  rewrite list_lookup_fmap.
  destruct (pipelines b !! i) as [s|] eqn:Hs.
  - destruct (files !! i) as [f|] eqn:Hf.
    + cbn. f_equal. unfold all_settled in Hall.
      rewrite forallb_forall in Hall.
      assert (Hin : In s (pipelines b))
        by (apply list_elem_of_In; by eapply list_elem_of_lookup_2).
      specialize (Hall s Hin). by destruct s.
    + apply lookup_lt_Some in Hs. apply lookup_ge_None in Hf. lia.
  - apply lookup_ge_None in Hs.
    rewrite (proj2 (lookup_ge_None files i)) by lia. done.
Qed.

(** *** Every pipeline gets to its end *)

Lemma resume_steps w0 bw i j s :
  none_pending → upload_inv w0 bw → pipelines bw.1 !! j = Some s →
  ∃ s', pipelines (resume projectId env tk files bw i).1 !! j = Some s' ∧
        (steps_left s'
         ≤ if decide (j = i) then pred (steps_left s) else steps_left s)%nat.
Proof.
  intros Hnp Hinv Hj.
  destruct (decide (j = i)) as [->|Hne].
  - assert (Hlt : i < length (pipelines bw.1)) by (by eapply lookup_lt_Some).
    destruct (files !! i) as [file|] eqn:Hf.
    2:{ apply lookup_ge_None in Hf. rewrite (inv_length _ _ Hinv) in Hlt. lia. }
    pose proof (inv_consistent _ _ Hinv i s file Hj Hf) as Hc.
    pose proof (Hnp i file Hf) as Hp. unfold pipeline_result in Hp.
    unfold resume. rewrite Hj, Hf.
    destruct s as [|target|key|]; cbn in Hc.
    + destruct (post_upload_url env i _) as [target| |] eqn:Hr; [| |done];
        cbn; rewrite list_lookup_insert_eq by done; eexists;
        (split; [done|cbn; lia]).
    + rewrite Hc in Hp.
      destruct (put_s3 env i _) as [[]| |] eqn:Hs; [| |done];
        cbn; rewrite list_lookup_insert_eq by done; eexists;
        (split; [done|cbn; lia]).
    + destruct Hc as (target & Hr & Hs & ->). rewrite Hr, Hs in Hp.
      destruct (post_confirm env i _) as [d| |] eqn:Hd; [| |done];
        cbn; rewrite list_lookup_insert_eq by done; eexists;
        (split; [done|cbn; lia]).
    + exists Settled. split; [done|cbn; lia].
  - exists s. split; [|done]. unfold resume, drop_item, advance.
    repeat case_match; cbn; rewrite ?list_lookup_insert_ne by done; done.
Qed.

Lemma pass_steps w0 (l : list nat) bw j s :
  none_pending → upload_inv w0 bw → pipelines bw.1 !! j = Some s →
  ∃ s', pipelines (foldl (resume projectId env tk files) bw l).1 !! j
        = Some s' ∧
        (steps_left s'
         ≤ if decide (j ∈ l) then pred (steps_left s) else steps_left s)%nat.
Proof.
  intros Hnp. revert bw s.
  induction l as [|i l IH]; intros bw s Hinv Hj; cbn [foldl].
  - exists s. split; [done|]. rewrite decide_False; [done|].
    apply not_elem_of_nil.
  - destruct (resume_steps w0 bw i j s Hnp Hinv Hj) as (s1 & Hj1 & Hle1).
    destruct (IH _ s1 (upload_inv_resume w0 bw i Hinv) Hj1)
      as (s' & Hj' & Hle').
    exists s'. split; [done|].
    destruct (decide (j ∈ i :: l)) as [Hin|Hnin];
      [apply elem_of_cons in Hin|apply not_elem_of_cons in Hnin];
      destruct (decide (j = i)), (decide (j ∈ l));
      try lia; try (destruct Hin; done); destruct Hnin; done.
Qed.

Lemma round_robin_settles w :
  none_pending →
  all_settled (run_uploads projectId env tk files round_robin w).1 = true.
Proof.
  intros Hnp. unfold run_uploads, round_robin. rewrite !foldl_app.
  set (bw0 := start_uploads projectId tk files w).
  set (bw1 := foldl _ bw0 _). set (bw2 := foldl _ bw1 _).
  set (bw3 := foldl _ bw2 _).
  assert (H0 : upload_inv w bw0) by apply upload_inv_start.
  assert (H1 : upload_inv w bw1) by (by apply upload_inv_foldl).
  assert (H2 : upload_inv w bw2) by (by apply upload_inv_foldl).
  assert (H3 : upload_inv w bw3) by (by apply upload_inv_foldl).
  unfold all_settled. apply forallb_forall. intros s3 Hin.
  apply list_elem_of_In, list_elem_of_lookup in Hin as [j Hj3].
  assert (Hlt : j < length files).
  { rewrite <- (inv_length _ _ H3). by eapply lookup_lt_Some. }
  assert (Hjin : j ∈ seq 0 (length files)) by (apply elem_of_seq; lia).
  destruct (lookup_lt_is_Some_2 (pipelines bw0.1) j) as [s0 Hj0].
  { by rewrite (inv_length _ _ H0). }
  destruct (pass_steps w (seq 0 (length files)) bw0 j s0 Hnp H0 Hj0)
    as (s1 & Hj1 & Hle1).
  destruct (pass_steps w (seq 0 (length files)) bw1 j s1 Hnp H1 Hj1)
    as (s2 & Hj2 & Hle2).
  destruct (pass_steps w (seq 0 (length files)) bw2 j s2 Hnp H2 Hj2)
    as (s3' & Hj3' & Hle3).
  fold bw1 in Hj1. fold bw2 in Hj2. fold bw3 in Hj3'.
  rewrite decide_True in Hle1, Hle2, Hle3 by done.
  assert (s3' = s3) by congruence. subst s3'.
  assert (steps_left s0 ≤ 3)%nat by (destruct s0; cbn; lia).
  destruct s3; cbn in *; done || lia.
Qed.

(** *** What happens to one item *)

Lemma fails_at_rejected st i file :
  fails_at st i file → pipeline_result projectId env tk i file = Rejected.
Proof.
  unfold pipeline_result.
  destruct st; cbn; [intros ->|intros (t & -> & ->)
                              |intros (t & -> & -> & ->)]; done.
Qed.

Lemma completes_fulfilled i file d :
  completes i file d ↔
  pipeline_result projectId env tk i file = Fulfilled d.
Proof.
  unfold completes, pipeline_result. split.
  - by intros (t & -> & -> & ->).
  - destruct (post_upload_url env i _) as [t| |]; [|done..].
    destruct (put_s3 env i _) as [[]| |] eqn:Hp; [|done..].
    intros Hd. by exists t.
Qed.

Lemma gather_settled {A} (g : nat → option stage → list A) :
  gather g ((λ _, Settled) <$> files)
  = flat_map (λ i, g i (Some Settled)) (seq 0 (length files)).
Proof.
  unfold gather. apply flat_map_ext_elem. intros i Hi.
  apply elem_of_seq in Hi. rewrite list_lookup_fmap.
  destruct (lookup_lt_is_Some_2 files i) as [f ->]; [lia|done].
Qed.

End Upload.

Lemma flat_map_all_but_one {A} (f : nat → list A) (l : list nat) (k : nat) :
  NoDup l → k ∈ l → f k = [] →
  (∀ i, i ∈ l → i ≠ k → length (f i) = 1) →
  length (flat_map f l) = length l - 1.
Proof.
  intros Hnd Hk Hfk Hone.
  assert (Hall : ∀ l', k ∉ l' → (∀ i, i ∈ l' → length (f i) = 1) →
                       length (flat_map f l') = length l').
  { induction l' as [|i l' IH]; [done|]. intros Hk' H1. cbn.
    apply not_elem_of_cons in Hk' as [Hne Hk'].
    rewrite length_app, H1 by left. rewrite IH; [done|done|].
    intros j Hj. apply H1. by right. }
  induction l as [|i l IH]; [by apply elem_of_nil in Hk|].
  apply NoDup_cons in Hnd as [Hi Hnd]. cbn. rewrite length_app.
  destruct (decide (i = k)) as [->|Hne].
  - rewrite Hfk. cbn. rewrite Hall; [lia|done|].
    intros j Hj. apply Hone; [by right|]. by intros ->.
  - rewrite Hone by (done || left).
    apply elem_of_cons in Hk as [->|Hk]; [done|].
    rewrite IH; [|done|done|].
    + destruct l; [by apply elem_of_nil in Hk|cbn; lia].
    + intros j Hj. apply Hone. by right.
Qed.

Lemma flat_map_only_one {A} (f : nat → list A) (l : list nat) (k : nat) :
  NoDup l → k ∈ l → (∀ i, i ∈ l → i ≠ k → f i = []) →
  flat_map f l = f k.
Proof.
  intros Hnd Hk Hnil.
  assert (Hall : ∀ l', (∀ i, i ∈ l' → f i = []) → flat_map f l' = []).
  { induction l' as [|i l' IH]; [done|]. intros H0. cbn.
    rewrite H0 by left. apply IH. intros j Hj. apply H0. by right. }
  induction l as [|i l IH]; [by apply elem_of_nil in Hk|].
  apply NoDup_cons in Hnd as [Hi Hnd]. cbn.
  destruct (decide (i = k)) as [->|Hne].
  - rewrite Hall; [by rewrite app_nil_r|].
    intros j Hj. apply Hnil; [by right|]. by intros ->.
  - rewrite Hnil by (done || left). cbn.
    apply elem_of_cons in Hk as [->|Hk]; [done|].
    apply IH; [done|done|]. intros j Hj. apply Hnil. by right.
Qed.

Lemma prepend_documents_nil d : prepend_documents [] d = d.
Proof. by destruct d. Qed.

(** What a run of the upload handler does, for any schedule. *)
Lemma handleDocumentUpload_run userId projectId env tk files schedule
    (w : World) :
  falsy userId = false → getToken env = Fulfilled tk →
  let r := handleDocumentUpload userId projectId env files schedule w in
  if all_settled (run_uploads projectId env tk files schedule w).1 then
    r.1 = Fulfilled tt ∧
    ∃ group evs,
      group ≡ₚ confirmed_documents projectId env tk files ∧
      st_data r.2 = prepend_documents group (st_data w) ∧
      trace r.2 = trace w ++ evs ∧
      error_toasts evs ≡ₚ failed_uploads projectId env tk files ∧
      set_data_values evs
      = if decide (group = []) then []
        else [prepend_documents group (st_data w)]
  else
    r.1 = Pending ∧ st_data r.2 = st_data w ∧
    ∃ evs, trace r.2 = trace w ++ evs ∧ set_data_values evs = [].
Proof.
  intros Hu Htk. unfold handleDocumentUpload. rewrite Hu.
  unfold mbind, M_bind, call_getToken, await. rewrite Htk.
  unfold Promise_allSettled.
  rewrite (run_uploads_batch projectId env tk files schedule w
             (log EGetToken w)).
  pose proof (upload_inv_run projectId env tk files (log EGetToken w) schedule)
    as [Hlen Hcons Hpush Hdata (evs & Htr & Htoast & Hset)].
  set (bw := run_uploads projectId env tk files schedule (log EGetToken w)) in *.
  cbn in Htr, Hdata.
  destruct (all_settled bw.1) eqn:Hall.
  - rewrite (all_settled_pipelines files _ Hlen Hall) in Hpush, Htoast.
    fold (confirmed_documents projectId env tk files) in Hpush.
    fold (failed_uploads projectId env tk files) in Htoast.
    case_bool_decide as Hpos.
    + run_handler. split; [done|].
      exists (uploadedDocuments bw.1). eexists.
      split; [done|]. rewrite Hdata. split; [done|].
      rewrite Htr. split; [rewrite <- !(assoc_L (++)); reflexivity|].
      rewrite !(assoc_L (++)), !error_toasts_snoc, !set_data_values_snoc.
      rewrite !app_nil_r.
      change (error_toasts ([EGetToken] ++ evs)) with (error_toasts evs).
      change (set_data_values ([EGetToken] ++ evs))
        with (set_data_values evs).
      rewrite Hset. split; [done|].
      rewrite decide_False; [done|]. intros E. rewrite E in Hpos. cbn in Hpos. lia.
    + cbn. split; [done|].
      assert (E : uploadedDocuments bw.1 = [])
        by (destruct (uploadedDocuments bw.1); [done|cbn in Hpos; lia]).
      exists [], ([EGetToken] ++ evs).
      rewrite <- E at 1. split; [done|].
      rewrite prepend_documents_nil, Hdata, Htr. split; [done|].
      split; [by rewrite (assoc_L (++))|]. split; [done|]. cbn. done.
  - cbn. split; [done|]. rewrite Hdata. split; [done|].
    exists ([EGetToken] ++ evs). rewrite Htr.
    split; [by rewrite (assoc_L (++))|done].
Qed.

Section Isolation.
Context (projectId : string) (env : Backend) (tk : token)
        (files : list File) (k : nat) (fileK : File) (st : upload_stage).
Hypothesis Hk : files !! k = Some fileK.
Hypothesis Hfail : fails_at projectId env tk st k fileK.
Hypothesis Hothers : ∀ i file,
  files !! i = Some file → i ≠ k → ∃ d, completes projectId env tk i file d.

Lemma isolation_none_pending : none_pending projectId env tk files.
Proof.
  intros i file Hf. destruct (decide (i = k)) as [->|Hne].
  - assert (file = fileK) as -> by congruence.
    by rewrite (fails_at_rejected _ _ _ _ _ _ Hfail).
  - destruct (Hothers i file Hf Hne) as [d Hd].
    apply completes_fulfilled in Hd. by rewrite Hd.
Qed.

Lemma isolation_confirmed_length :
  length (confirmed_documents projectId env tk files) = length files - 1.
Proof.
  unfold confirmed_documents. rewrite gather_settled.
  rewrite (flat_map_all_but_one _ _ k).
  - by rewrite length_seq.
  - apply NoDup_seq.
  - apply elem_of_seq. apply lookup_lt_Some in Hk. lia.
  - unfold pushed. by rewrite Hk, (fails_at_rejected _ _ _ _ _ _ Hfail).
  - intros i Hi Hne. apply elem_of_seq in Hi.
    destruct (lookup_lt_is_Some_2 files i) as [f Hf]; [lia|].
    destruct (Hothers i f Hf Hne) as [d Hd].
    apply completes_fulfilled in Hd. unfold pushed. by rewrite Hf, Hd.
Qed.

Lemma isolation_failed_uploads :
  failed_uploads projectId env tk files
  = ["Failed to upload " +:+ file_name fileK].
Proof.
  unfold failed_uploads. rewrite gather_settled.
  rewrite (flat_map_only_one _ _ k).
  - unfold toasted. by rewrite Hk, (fails_at_rejected _ _ _ _ _ _ Hfail).
  - apply NoDup_seq.
  - apply elem_of_seq. apply lookup_lt_Some in Hk. lia.
  - intros i Hi Hne. apply elem_of_seq in Hi.
    destruct (lookup_lt_is_Some_2 files i) as [f Hf]; [lia|].
    destruct (Hothers i f Hf Hne) as [d Hd].
    apply completes_fulfilled in Hd. unfold toasted. by rewrite Hf, Hd.
Qed.

Lemma isolation_sibling_confirmed i file d :
  files !! i = Some file → completes projectId env tk i file d →
  d ∈ confirmed_documents projectId env tk files.
Proof.
  intros Hf Hd. apply completes_fulfilled in Hd.
  unfold confirmed_documents. rewrite gather_settled.
  apply list_elem_of_In, in_flat_map. exists i. split.
  - apply in_seq. apply lookup_lt_Some in Hf. lia.
  - unfold pushed. rewrite Hf, Hd. by left.
Qed.

End Isolation.

(** C2. Upload isolation.  In a batch where item [k] is rejected at one of
    its three stages and every other item completes its three stages:
    - for every schedule that lets all pipelines settle, the handler ends
      normally; the documents are the prior sequence with one group put in
      front; the group has [N - 1] documents, among them the document of
      every other item, each one what its own three calls produce; exactly
      one failure is reported, the one of item [k]; the snapshot is set at
      most once;
    - for a schedule that leaves a pipeline unsettled, the handler is still
      waiting and the snapshot is the prior one;
    - schedules of the first kind exist: the round robin is one. *)
Theorem upload_isolation userId projectId env tk files k fileK st schedule
    (w : World) :
  falsy userId = false →
  getToken env = Fulfilled tk →
  files !! k = Some fileK →
  fails_at projectId env tk st k fileK →
  (∀ i file, files !! i = Some file → i ≠ k →
             ∃ d, completes projectId env tk i file d) →
  let r := handleDocumentUpload userId projectId env files schedule w in
  (if all_settled (run_uploads projectId env tk files schedule w).1 then
     r.1 = Fulfilled tt ∧
     ∃ group evs,
       st_data r.2 = prepend_documents group (st_data w) ∧
       documents (st_data r.2) = group ++ documents (st_data w) ∧
       length group = length files - 1 ∧
       group ≡ₚ confirmed_documents projectId env tk files ∧
       (∀ i file d, files !! i = Some file → i ≠ k →
                    completes projectId env tk i file d → d ∈ group) ∧
       trace r.2 = trace w ++ evs ∧
       error_toasts evs = ["Failed to upload " +:+ file_name fileK] ∧
       (length (set_data_values evs) ≤ 1)%nat
   else r.1 = Pending ∧ st_data r.2 = st_data w) ∧
  all_settled
    (run_uploads projectId env tk files (round_robin files) w).1 = true.
Proof.
  intros Hu Htk Hk Hfail Hothers r. split.
  - pose proof (handleDocumentUpload_run userId projectId env tk files
                  schedule w Hu Htk) as Hrun.
    fold r in Hrun.
    destruct (all_settled _).
    + destruct Hrun as (Hr & group & evs & Hperm & Hdata & Htr & Hto & Hset).
      split; [done|]. exists group, evs.
      split; [done|]. split; [by rewrite Hdata|].
      split.
      { rewrite Hperm.
        by apply (isolation_confirmed_length projectId env tk files k fileK st). }
      split; [done|]. split.
      { intros i file d Hf _ Hd. rewrite Hperm.
        by eapply isolation_sibling_confirmed. }
      split; [done|]. split.
      { rewrite (isolation_failed_uploads projectId env tk files k fileK st)
          in Hto by done.
        by apply Permutation_singleton_r in Hto. }
      rewrite Hset. case_decide; cbn; lia.
    + by destruct Hrun as (? & ? & _).
  - apply round_robin_settles.
    by apply (isolation_none_pending projectId env tk files k fileK st).
Qed.

Lemma upload_isolation_witness :
  let r := handleDocumentUpload (Some "user_1") "p1" good_backend
             [fileA; fileB; fileC] [2; 1; 0; 2; 0; 2; 0] loaded_world in
  r.1 = Fulfilled tt ∧
  ∃ group evs,
    documents (st_data r.2) = group ++ [] ∧
    length group = 2 ∧
    trace r.2 = [] ++ evs ∧
    error_toasts evs = ["Failed to upload b.pdf"].
Proof.
  pose proof (upload_isolation (Some "user_1") "p1" good_backend (Some "jwt")
                [fileA; fileB; fileC] 1 fileB Reserve [2; 1; 0; 2; 0; 2; 0]
                loaded_world eq_refl eq_refl eq_refl eq_refl) as H.
  cbv zeta in H. destruct H as [H _].
  - intros i file Hf Hne.
    destruct i as [|[|[|i]]]; [| done | |done];
      injection Hf as <-; unfold completes; do 2 eexists;
      cbn; repeat split; reflexivity.
  - change (all_settled _) with true in H.
    destruct H as (Hr & group & evs & _ & Hd & Hl & _ & _ & Ht & He & _).
    split; [exact Hr|]. exists group, evs. repeat split; assumption.
Defined.

(** ** Uniqueness of ids *)







Section FreshDocuments.
Context (projectId : string) (env : Backend) (tk : token)
        (files : list File) (d0 : ProjectData).
Hypothesis Hfresh : ∀ i r d,
  post_confirm env i r = Fulfilled d → doc_id d ∉ document_ids d0.
Hypothesis Hdistinct : ∀ i j r r' d d',
  i ≠ j → post_confirm env i r = Fulfilled d →
  post_confirm env j r' = Fulfilled d' → doc_id d ≠ doc_id d'.




End FreshDocuments.

(** What a handler with one call and one merge leaves in the snapshot. *)
Lemma handleCreateNewChat_data userId projectId env (w : World) :
  st_data (handleCreateNewChat userId projectId env w).2 = st_data w ∨
  ∃ r c, post_chat env r = Fulfilled c ∧
         st_data (handleCreateNewChat userId projectId env w).2
         = prepend_chat c (st_data w).
Proof.
  unfold handleCreateNewChat. destruct (falsy userId); [by left|].
  run_handler. destruct (getToken env) as [tk| |]; [|by left..].
  destruct (post_chat env _) as [c| |] eqn:Hc; [|by left..].
  right. eexists _, c. by split; [exact Hc|].
Qed.

Lemma handleUrlAdd_data userId projectId env url (w : World) :
  st_data (handleUrlAdd userId projectId env url w).2 = st_data w ∨
  ∃ r x, post_url env r = Fulfilled x ∧
         st_data (handleUrlAdd userId projectId env url w).2
         = prepend_document x (st_data w).
Proof.
  unfold handleUrlAdd. destruct (falsy userId); [by left|].
  run_handler. destruct (getToken env) as [tk| |]; [|by left..].
  destruct (post_url env _) as [x| |] eqn:Hx; [|by left..].
  right. eexists _, x. by split; [exact Hx|].
Qed.

Lemma handleDeleteChat_data userId env chatId (w : World) :
  st_data (handleDeleteChat userId env chatId w).2 = st_data w ∨
  st_data (handleDeleteChat userId env chatId w).2
  = remove_chat chatId (st_data w).
Proof.
  unfold handleDeleteChat. destruct (falsy userId); [by left|].
  run_handler. destruct (getToken env) as [tk| |]; [|by left..].
  destruct (delete_any env _) as [[]| |]; [|by left..]. by right.
Qed.

Lemma handleDocumentDelete_data userId projectId env documentId (w : World) :
  st_data (handleDocumentDelete userId projectId env documentId w).2
  = st_data w ∨
  st_data (handleDocumentDelete userId projectId env documentId w).2
  = remove_document documentId (st_data w).
Proof.
  unfold handleDocumentDelete. destruct (falsy userId); [by left|].
  run_handler. destruct (getToken env) as [tk| |]; [|by left..].
  destruct (delete_any env _) as [[]| |]; [|by left..]. by right.
Qed.

Lemma handleDocumentUpload_data userId projectId env files schedule
    (w : World) :
  st_data (handleDocumentUpload userId projectId env files schedule w).2
  = st_data w ∨
  ∃ tk group,
    group ≡ₚ confirmed_documents projectId env tk files ∧
    st_data (handleDocumentUpload userId projectId env files schedule w).2
    = prepend_documents group (st_data w).
Proof.
  destruct (falsy userId) eqn:Hu.
  { left. unfold handleDocumentUpload. by rewrite Hu. }
  destruct (getToken env) as [tk| |] eqn:Htk.
  - pose proof (handleDocumentUpload_run userId projectId env tk files
                  schedule w Hu Htk) as Hrun.
    destruct (all_settled _).
    + destruct Hrun as (_ & group & evs & Hperm & Hdata & _).
      right. by exists tk, group.
    + left. by destruct Hrun as (_ & ? & _).
  - left. unfold handleDocumentUpload. rewrite Hu.
    unfold mbind, M_bind, call_getToken, await. by rewrite Htk.
  - left. unfold handleDocumentUpload. rewrite Hu.
    unfold mbind, M_bind, call_getToken, await. by rewrite Htk.
Qed.




(** ** Further properties of the conversation handlers *)

Lemma trace_app3 (l : list event) a b c :
  ((l ++ [a]) ++ [b]) ++ [c] = l ++ [a; b; c].
Proof. by rewrite <- !(assoc_L (++)). Qed.

Lemma filter_id_gone {A} (key : A → string) (x : string) (l : list A) :
  x ∉ key <$> filter (λ a, key a ≠ x) l.
Proof.
  intros (a & -> & Ha)%list_elem_of_fmap.
  apply list_elem_of_filter in Ha as [Hne _]. done.
Qed.

Lemma filter_filter_same {A} (key : A → string) (x : string) (l : list A) :
  filter (λ a, key a ≠ x) (filter (λ a, key a ≠ x) l)
  = filter (λ a, key a ≠ x) l.
Proof.
  induction l as [|a l IH]; [done|].
  destruct (decide (key a = x)) as [E|E].
  - rewrite filter_cons_False by (by intros ?). done.
  - rewrite filter_cons_True by done.
    rewrite filter_cons_True by done. by rewrite IH.
Qed.

(** X1. A create that fails, because the token or the request is rejected,
    is caught: the handler ends normally, the snapshot is the prior one, the
    only report is the toast "Failed to create chat", and the creating flag
    is back to false. *)
Theorem handleCreateNewChat_failure userId projectId env (w : World) :
  falsy userId = false →
  (getToken env = Rejected ∨
   ∃ tk, getToken env = Fulfilled tk ∧
     post_chat env
       (Post "/api/chats"
          (ChatBody ("Chat #" +:+ pretty (now env mod 10000)%N) projectId) tk)
     = Rejected) →
  let r := handleCreateNewChat userId projectId env w in
  r.1 = Fulfilled tt ∧
  st_data r.2 = st_data w ∧
  st_isCreatingChat r.2 = false ∧
  ∃ evs, trace r.2 = trace w ++ evs ∧
         error_toasts evs = ["Failed to create chat"] ∧
         success_toasts evs = [] ∧
         set_data_values evs = [].
Proof.
  intros Hu Hfail. unfold handleCreateNewChat. rewrite Hu. run_handler.
  destruct Hfail as [Htk|(tk & Htk & Hpost)].
  - rewrite Htk. cbn. repeat split.
    eexists. split; [rewrite <- !(assoc_L (++)); reflexivity|done].
  - rewrite Htk, Hpost. cbn. repeat split.
    eexists. split; [rewrite <- !(assoc_L (++)); reflexivity|done].
Qed.

Lemma handleCreateNewChat_failure_witness :
  chats (st_data (handleCreateNewChat (Some "user_1") "p1" failing_backend
                    loaded_world).2) = [chat1; chat2].
Proof.
  destruct (handleCreateNewChat_failure (Some "user_1") "p1" failing_backend
              loaded_world eq_refl) as (_ & Hd & _).
  - right. by exists (Some "jwt").
  - by rewrite Hd.
Defined.

(** X2. The creating flag: with an identity, the create handler is never
    rejected; whenever it ends the flag is false, and while the token or
    the request is still pending the flag stays true. *)
Theorem handleCreateNewChat_flag userId projectId env (w : World) :
  falsy userId = false →
  let r := handleCreateNewChat userId projectId env w in
  match r.1 with
  | Fulfilled _ => st_isCreatingChat r.2 = false
  | Rejected => False
  | Pending => st_isCreatingChat r.2 = true
  end.
Proof.
  intros Hu. unfold handleCreateNewChat. rewrite Hu. run_handler.
  destruct (getToken env) as [tk| |]; cbn; [|done..].
  destruct (post_chat env _) as [c| |]; cbn; done.
Qed.

Lemma handleCreateNewChat_flag_witness :
  st_isCreatingChat
    (handleCreateNewChat (Some "user_1") "p1" good_backend loaded_world).2
  = false.
Proof.
  exact (handleCreateNewChat_flag (Some "user_1") "p1" good_backend
           loaded_world eq_refl).
Defined.

(** X3. A failed delete-chat, delete-document or add-from-url (token or
    request rejected) is caught: the handler ends normally, the snapshot is
    the prior one and the only report is the handler's own error toast. *)
Theorem mutation_failure_keeps_snapshot userId projectId env (w : World) :
  falsy userId = false →
  (∀ chatId,
     (getToken env = Rejected ∨
      ∃ tk, getToken env = Fulfilled tk ∧
            delete_any env (Delete ("/api/chats/" +:+ chatId) tk) = Rejected) →
     let r := handleDeleteChat userId env chatId w in
     r.1 = Fulfilled tt ∧ st_data r.2 = st_data w ∧
     ∃ evs, trace r.2 = trace w ++ evs ∧
            error_toasts evs = ["Failed to delete chat"] ∧
            success_toasts evs = [] ∧ set_data_values evs = []) ∧
  (∀ documentId,
     (getToken env = Rejected ∨
      ∃ tk, getToken env = Fulfilled tk ∧
            delete_any env
              (Delete ("/api/projects/" +:+ projectId +:+ "/files/"
                         +:+ documentId) tk) = Rejected) →
     let r := handleDocumentDelete userId projectId env documentId w in
     r.1 = Fulfilled tt ∧ st_data r.2 = st_data w ∧
     ∃ evs, trace r.2 = trace w ++ evs ∧
            error_toasts evs = ["Document deletion failed"] ∧
            success_toasts evs = [] ∧ set_data_values evs = []) ∧
  (∀ url,
     (getToken env = Rejected ∨
      ∃ tk, getToken env = Fulfilled tk ∧
            post_url env
              (Post ("/api/projects/" +:+ projectId +:+ "/urls")
                    (UrlBody url) tk) = Rejected) →
     let r := handleUrlAdd userId projectId env url w in
     r.1 = Fulfilled tt ∧ st_data r.2 = st_data w ∧
     ∃ evs, trace r.2 = trace w ++ evs ∧
            error_toasts evs = ["Failed to add website"] ∧
            success_toasts evs = [] ∧ set_data_values evs = []).
Proof.
  intros Hu. split; [|split].
  - intros chatId Hfail. unfold handleDeleteChat. rewrite Hu. run_handler.
    destruct Hfail as [Htk|(tk & Htk & Hcall)]; rewrite Htk, ?Hcall; cbn;
      repeat split; eexists;
      (split; [rewrite <- !(assoc_L (++)); reflexivity|done]).
  - intros documentId Hfail. unfold handleDocumentDelete. rewrite Hu.
    run_handler.
    destruct Hfail as [Htk|(tk & Htk & Hcall)]; rewrite Htk, ?Hcall; cbn;
      repeat split; eexists;
      (split; [rewrite <- !(assoc_L (++)); reflexivity|done]).
  - intros url Hfail. unfold handleUrlAdd. rewrite Hu. run_handler.
    destruct Hfail as [Htk|(tk & Htk & Hcall)]; rewrite Htk, ?Hcall; cbn;
      repeat split; eexists;
      (split; [rewrite <- !(assoc_L (++)); reflexivity|done]).
Qed.

Lemma mutation_failure_keeps_snapshot_witness :
  st_data (handleDeleteChat (Some "user_1") failing_backend "c1"
             loaded_world).2 = loaded_data.
Proof.
  destruct (mutation_failure_keeps_snapshot (Some "user_1") "p1"
              failing_backend loaded_world eq_refl) as (Hc & _ & _).
  destruct (Hc "c1") as (_ & Hd & _).
  - right. by exists (Some "jwt").
  - exact Hd.
Defined.

(** X4. A successful delete-chat removes the id from the sequence: the id
    is no longer among the chat ids, a chat is kept exactly when it was
    there with another id, the kept chats are in their former order, and
    project, documents and settings are untouched. *)
Theorem handleDeleteChat_removes userId env tk chatId (w : World) :
  falsy userId = false →
  getToken env = Fulfilled tk →
  delete_any env (Delete ("/api/chats/" +:+ chatId) tk) = Fulfilled tt →
  let r := handleDeleteChat userId env chatId w in
  r.1 = Fulfilled tt ∧
  (chatId ∉ chat_ids (st_data r.2)) ∧
  (∀ c, c ∈ chats (st_data r.2) ↔
        c ∈ chats (st_data w) ∧ chat_id c ≠ chatId) ∧
  (chats (st_data r.2) `sublist_of` chats (st_data w)) ∧
  project (st_data r.2) = project (st_data w) ∧
  documents (st_data r.2) = documents (st_data w) ∧
  settings (st_data r.2) = settings (st_data w) ∧
  ∃ evs, trace r.2 = trace w ++ evs ∧ error_toasts evs = [] ∧
         success_toasts evs = ["Chat deleted successfully"].
Proof.
  intros Hu Htk Hdel. unfold handleDeleteChat. rewrite Hu. run_handler.
  rewrite Htk, Hdel. cbn. split; [done|]. split; [apply filter_id_gone|].
  split.
  { intros c. rewrite list_elem_of_filter. tauto. }
  split; [apply sublist_filter|]. repeat split.
  eexists. split; [rewrite <- !(assoc_L (++)); reflexivity|done].
Qed.

Lemma handleDeleteChat_removes_witness :
  chats (st_data (handleDeleteChat (Some "user_1") good_backend "c1"
                    loaded_world).2) = [chat2]
  ∧ "c1" ∉ chat_ids (st_data (handleDeleteChat (Some "user_1") good_backend
                                "c1" loaded_world).2).
Proof.
  split; [reflexivity|].
  apply (handleDeleteChat_removes (Some "user_1") good_backend (Some "jwt")
           "c1" loaded_world eq_refl eq_refl eq_refl).
Defined.

(** X5. A successful delete-document removes the id from the sequence: the
    id is no longer among the document ids, a document is kept exactly when
    it was there with another id, the kept documents are in their former
    order, and project, chats and settings are untouched. *)
Theorem handleDocumentDelete_removes userId projectId env tk documentId
    (w : World) :
  falsy userId = false →
  getToken env = Fulfilled tk →
  delete_any env
    (Delete ("/api/projects/" +:+ projectId +:+ "/files/" +:+ documentId) tk)
  = Fulfilled tt →
  let r := handleDocumentDelete userId projectId env documentId w in
  r.1 = Fulfilled tt ∧
  (documentId ∉ document_ids (st_data r.2)) ∧
  (∀ d, d ∈ documents (st_data r.2) ↔
        d ∈ documents (st_data w) ∧ doc_id d ≠ documentId) ∧
  (documents (st_data r.2) `sublist_of` documents (st_data w)) ∧
  project (st_data r.2) = project (st_data w) ∧
  chats (st_data r.2) = chats (st_data w) ∧
  settings (st_data r.2) = settings (st_data w) ∧
  ∃ evs, trace r.2 = trace w ++ evs ∧ error_toasts evs = [] ∧
         success_toasts evs = ["Document deleted successfully!"].
Proof.
  intros Hu Htk Hdel. unfold handleDocumentDelete. rewrite Hu. run_handler.
  rewrite Htk, Hdel. cbn. split; [done|]. split; [apply filter_id_gone|].
  split.
  { intros c. rewrite list_elem_of_filter. tauto. }
  split; [apply sublist_filter|]. repeat split.
  eexists. split; [rewrite <- !(assoc_L (++)); reflexivity|done].
Qed.

Lemma handleDocumentDelete_removes_witness :
  let w1 := (handleUrlAdd (Some "user_1") "p1" good_backend
               "https://example.com" loaded_world).2 in
  "w1" ∉ document_ids
           (st_data (handleDocumentDelete (Some "user_1") "p1" good_backend
                       "w1" w1).2).
Proof.
  cbv zeta.
  apply (handleDocumentDelete_removes (Some "user_1") "p1" good_backend
           (Some "jwt") "w1" _ eq_refl eq_refl eq_refl).
Defined.

(** X6. Create, then delete what was created: when the server's chat has an
    id that was not in the sequence, a successful delete of that id brings
    the snapshot back to the one before the create. *)
Theorem create_then_delete_restores userId projectId env tk savedChat
    (w : World) :
  falsy userId = false →
  getToken env = Fulfilled tk →
  post_chat env
    (Post "/api/chats"
       (ChatBody ("Chat #" +:+ pretty (now env mod 10000)%N) projectId) tk)
  = Fulfilled savedChat →
  delete_any env (Delete ("/api/chats/" +:+ chat_id savedChat) tk)
  = Fulfilled tt →
  chat_id savedChat ∉ chat_ids (st_data w) →
  let w1 := (handleCreateNewChat userId projectId env w).2 in
  let w2 := (handleDeleteChat userId env (chat_id savedChat) w1).2 in
  st_data w1 = prepend_chat savedChat (st_data w) ∧ st_data w2 = st_data w.
Proof.
  intros Hu Htk Hpost Hdel Hfresh.
  unfold handleCreateNewChat, handleDeleteChat. rewrite Hu. run_handler.
  repeat (rewrite ?Htk, ?Hpost, ?Hdel; cbn). split; [done|].
  destruct (st_data w) as [p cs ds st]. unfold chat_ids in Hfresh.
  unfold remove_chat, prepend_chat. cbn [chats project documents settings] in *.
  rewrite filter_cons_False by (by intros ?).
  by rewrite (filter_absent chat_id).
Qed.

Lemma create_then_delete_restores_witness :
  let w1 := (handleCreateNewChat (Some "user_1") "p1" good_backend
               initial_world).2 in
  st_data (handleDeleteChat (Some "user_1") good_backend "c1" w1).2
  = initial_data.
Proof.
  cbv zeta.
  apply (create_then_delete_restores (Some "user_1") "p1" good_backend
           (Some "jwt") chat1 initial_world eq_refl eq_refl eq_refl eq_refl).
  by apply (bool_decide_unpack _).
Defined.

(** X7. Add a website, then delete it: when the server's document has an id
    that was not in the sequence, a successful delete of that id brings the
    snapshot back to the one before the add. *)
Theorem url_add_then_delete_restores userId projectId env tk url newDocument
    (w : World) :
  falsy userId = false →
  getToken env = Fulfilled tk →
  post_url env
    (Post ("/api/projects/" +:+ projectId +:+ "/urls") (UrlBody url) tk)
  = Fulfilled newDocument →
  delete_any env
    (Delete ("/api/projects/" +:+ projectId +:+ "/files/"
               +:+ doc_id newDocument) tk)
  = Fulfilled tt →
  doc_id newDocument ∉ document_ids (st_data w) →
  let w1 := (handleUrlAdd userId projectId env url w).2 in
  let w2 := (handleDocumentDelete userId projectId env
               (doc_id newDocument) w1).2 in
  st_data w1 = prepend_document newDocument (st_data w) ∧
  documents (st_data w1) = newDocument :: documents (st_data w) ∧
  st_data w2 = st_data w.
Proof.
  intros Hu Htk Hpost Hdel Hfresh.
  unfold handleUrlAdd, handleDocumentDelete. rewrite Hu. run_handler.
  repeat (rewrite ?Htk, ?Hpost, ?Hdel; cbn). split; [done|].
  split; [done|].
  destruct (st_data w) as [p cs ds st]. unfold document_ids in Hfresh.
  unfold remove_document, prepend_document.
  cbn [chats project documents settings] in *.
  rewrite filter_cons_False by (by intros ?).
  by rewrite (filter_absent doc_id).
Qed.

Lemma url_add_then_delete_restores_witness :
  let w1 := (handleUrlAdd (Some "user_1") "p1" good_backend
               "https://example.com" loaded_world).2 in
  st_data (handleDocumentDelete (Some "user_1") "p1" good_backend "w1" w1).2
  = loaded_data.
Proof.
  cbv zeta.
  apply (url_add_then_delete_restores (Some "user_1") "p1" good_backend
           (Some "jwt") "https://example.com" website loaded_world
           eq_refl eq_refl eq_refl eq_refl).
  by apply (bool_decide_unpack _).
Defined.

(** X8. Deleting the same id twice, both deletes succeeding, leaves the
    snapshot of the first delete: the second one changes nothing.  This
    holds for the chats and for the documents. *)
Theorem delete_twice_same userId projectId env tk id (w : World) :
  falsy userId = false →
  getToken env = Fulfilled tk →
  (delete_any env (Delete ("/api/chats/" +:+ id) tk) = Fulfilled tt →
   let w1 := (handleDeleteChat userId env id w).2 in
   st_data (handleDeleteChat userId env id w1).2 = st_data w1) ∧
  (delete_any env
     (Delete ("/api/projects/" +:+ projectId +:+ "/files/" +:+ id) tk)
   = Fulfilled tt →
   let w1 := (handleDocumentDelete userId projectId env id w).2 in
   st_data (handleDocumentDelete userId projectId env id w1).2 = st_data w1).
Proof.
  intros Hu Htk. split; intros Hdel.
  - unfold handleDeleteChat. rewrite Hu. run_handler.
    repeat (rewrite ?Htk, ?Hdel; cbn).
    unfold remove_chat. cbn [chats project documents settings].
    by rewrite filter_filter_same.
  - unfold handleDocumentDelete. rewrite Hu. run_handler.
    repeat (rewrite ?Htk, ?Hdel; cbn).
    unfold remove_document. cbn [chats project documents settings].
    by rewrite filter_filter_same.
Qed.

Lemma delete_twice_same_witness :
  let w1 := (handleDeleteChat (Some "user_1") good_backend "c1"
               loaded_world).2 in
  chats (st_data (handleDeleteChat (Some "user_1") good_backend "c1" w1).2)
  = [chat2].
Proof.
  cbv zeta.
  destruct (delete_twice_same (Some "user_1") "p1" good_backend (Some "jwt")
              "c1" loaded_world eq_refl eq_refl) as [H _].
  by rewrite (H eq_refl).
Defined.

(** X9. A successful add-from-url puts the server's document in front of
    the prior documents and leaves project, chats and settings as they
    were; the only report is the success toast. *)
Theorem handleUrlAdd_prepends userId projectId env tk url newDocument
    (w : World) :
  falsy userId = false →
  getToken env = Fulfilled tk →
  post_url env
    (Post ("/api/projects/" +:+ projectId +:+ "/urls") (UrlBody url) tk)
  = Fulfilled newDocument →
  let r := handleUrlAdd userId projectId env url w in
  r.1 = Fulfilled tt ∧
  documents (st_data r.2) = newDocument :: documents (st_data w) ∧
  project (st_data r.2) = project (st_data w) ∧
  chats (st_data r.2) = chats (st_data w) ∧
  settings (st_data r.2) = settings (st_data w) ∧
  ∃ evs, trace r.2 = trace w ++ evs ∧ error_toasts evs = [] ∧
         success_toasts evs = ["Website added successfully!"] ∧
         remote_calls evs
         = [Post ("/api/projects/" +:+ projectId +:+ "/urls")
                 (UrlBody url) tk].
Proof.
  intros Hu Htk Hpost. unfold handleUrlAdd. rewrite Hu. run_handler.
  rewrite Htk, Hpost. cbn. repeat split.
  eexists. split; [rewrite <- !(assoc_L (++)); reflexivity|done].
Qed.

Lemma handleUrlAdd_prepends_witness :
  documents (st_data (handleUrlAdd (Some "user_1") "p1" good_backend
                        "https://example.com" loaded_world).2) = [website].
Proof.
  apply (handleUrlAdd_prepends (Some "user_1") "p1" good_backend (Some "jwt")
           "https://example.com" website loaded_world
           eq_refl eq_refl eq_refl).
Defined.

(** ** Further properties of the settings handlers *)

Lemma replace_settings_same d : replace_settings (settings d) d = d.
Proof. by destruct d. Qed.

(** X10. A successful publish sends the settings of the render that created
    the handler and installs the server's answer as the settings of the
    store, whatever the store held; project, chats and documents of the
    store are kept.  A [null] answer leaves the settings null. *)
Theorem handlePublishSettings_success userId projectId env data tk s result
    (w : World) :
  falsy userId = false →
  settings data = Some s →
  getToken env = Fulfilled tk →
  put_settings env
    (Put ("/api/projects/" +:+ projectId +:+ "/settings") s tk)
  = Fulfilled result →
  let r := handlePublishSettings userId projectId env data w in
  r.1 = Fulfilled tt ∧
  settings (st_data r.2) = result ∧
  st_data r.2 = replace_settings result (st_data w) ∧
  trace r.2 = trace w ++
    [EGetToken;
     ERemote (Put ("/api/projects/" +:+ projectId +:+ "/settings") s tk);
     ESetData (replace_settings result (st_data w));
     EToastSuccess "Settings saved successfully!"].
Proof.
  intros Hu Hs Htk Hput. unfold handlePublishSettings. rewrite Hu, Hs.
  run_handler. rewrite Htk, Hput. cbn.
  by rewrite <- !(assoc_L (++)).
Qed.

Lemma handlePublishSettings_success_witness :
  let w1 := (handleDraftSettings casual loaded_world).2 in
  settings (st_data (handlePublishSettings (Some "user_1") "p1" good_backend
                       loaded_data w1).2) = Some formal.
Proof.
  cbv zeta.
  apply (handlePublishSettings_success (Some "user_1") "p1" good_backend
           loaded_data (Some "jwt") formal (Some formal) _
           eq_refl eq_refl eq_refl eq_refl).
Defined.

(** X11. Drafts compose.  Two drafts in a row leave the snapshot of one
    draft with the second update laid over the first; drafting the same
    update twice is drafting it once; drafting the empty update leaves the
    snapshot as it is. *)
Theorem handleDraftSettings_compose (u1 u2 : ProjectSettings) (w : World) :
  st_data (handleDraftSettings u2 (handleDraftSettings u1 w).2).2
  = st_data (handleDraftSettings (u2 ∪ u1) w).2
  ∧ st_data (handleDraftSettings u1 (handleDraftSettings u1 w).2).2
    = st_data (handleDraftSettings u1 w).2
  ∧ st_data (handleDraftSettings ∅ w).2 = st_data w.
Proof.
  unfold handleDraftSettings. run_handler.
  destruct (settings (st_data w)) as [s|] eqn:Hs; cbn; rewrite ?Hs; cbn.
  - unfold spread. split; [by rewrite (assoc_L (∪))|].
    split.
    + by rewrite (assoc_L (∪)), (idemp_L (∪)).
    + rewrite (left_id_L ∅ (∪)), <- Hs. by destruct (st_data w).
  - done.
Qed.

(** ** Rejections and the number of calls *)

(** X12. Apart from the upload, no operation of the page is ever rejected:
    whatever the backend answers, every failure is caught inside the
    handler. *)
Theorem handlers_never_reject userId projectId env op (w : World) :
  (∀ files schedule, op ≠ DocumentUpload files schedule) →
  (perform userId projectId env op w).1 ≠ Rejected.
Proof.
  intros Hop. destruct op; cbn [perform].
  - unfold loadAllData. destruct (falsy userId); [done|]. run_handler.
    destruct (getToken env) as [tk| |]; cbn; [|done..].
    destruct (get_project env _), (get_chats env _),
      (get_files env _), (get_settings env _); cbn; done.
  - unfold handleCreateNewChat. destruct (falsy userId); [done|].
    run_handler. destruct (getToken env) as [tk| |]; cbn; [|done..].
    destruct (post_chat env _); cbn; done.
  - unfold handleDeleteChat. destruct (falsy userId); [done|].
    run_handler. destruct (getToken env) as [tk| |]; cbn; [|done..].
    destruct (delete_any env _); cbn; done.
  - by destruct (Hop files schedule).
  - unfold handleDocumentDelete. destruct (falsy userId); [done|].
    run_handler. destruct (getToken env) as [tk| |]; cbn; [|done..].
    destruct (delete_any env _); cbn; done.
  - unfold handleUrlAdd. destruct (falsy userId); [done|].
    run_handler. destruct (getToken env) as [tk| |]; cbn; [|done..].
    destruct (post_url env _); cbn; done.
  - unfold handleDraftSettings. run_handler.
    destruct (settings (st_data w)); cbn; done.
  - unfold handlePublishSettings.
    destruct (falsy userId), (settings data); try done.
    run_handler. destruct (getToken env) as [tk| |]; cbn; [|done..].
    destruct (put_settings env _); cbn; done.
Qed.

Lemma handlers_never_reject_witness :
  (perform (Some "user_1") "p1" failing_backend (UrlAdd "https://example.com")
     loaded_world).1 = Fulfilled tt.
Proof.
  pose proof (handlers_never_reject (Some "user_1") "p1" failing_backend
                (UrlAdd "https://example.com") loaded_world) as H.
  destruct (perform _ _ _ _ _).1 as [[]| |] eqn:E; [done| |done].
  exfalso. apply H; [by intros ??|done].
Defined.

(** X13. The upload handler asks for the token outside of any [try]: it is
    rejected exactly when there is an identity and [getToken] is rejected,
    and then nothing is reported and the snapshot is the prior one. *)
Theorem handleDocumentUpload_rejects userId projectId env files schedule
    (w : World) :
  let r := handleDocumentUpload userId projectId env files schedule w in
  (r.1 = Rejected ↔ falsy userId = false ∧ getToken env = Rejected) ∧
  (r.1 = Rejected →
   st_data r.2 = st_data w ∧ trace r.2 = trace w ++ [EGetToken]).
Proof.
  cbv zeta. destruct (falsy userId) eqn:Hu.
  { unfold handleDocumentUpload. rewrite Hu. cbn. split; [|done].
    split; [done|]. by intros [? _]. }
  destruct (getToken env) as [tk| |] eqn:Htk.
  - pose proof (handleDocumentUpload_run userId projectId env tk files
                  schedule w Hu Htk) as Hrun. cbv zeta in Hrun.
    destruct (all_settled _).
    + destruct Hrun as (Hr & _). rewrite Hr. split; [|done].
      split; [done|]. by intros [_ ?].
    + destruct Hrun as (Hr & _). rewrite Hr. split; [|done].
      split; [done|]. by intros [_ ?].
  - unfold handleDocumentUpload. rewrite Hu.
    unfold mbind, M_bind, call_getToken, await. rewrite Htk. cbn. done.
  - unfold handleDocumentUpload. rewrite Hu.
    unfold mbind, M_bind, call_getToken, await. rewrite Htk. cbn.
    split; [|done]. split; [done|]. by intros [_ ?].
Qed.

(** ** Further properties of the upload pipeline *)

Lemma sum_list_insert {A} (f : A → nat) (l : list A) (i : nat) (x y : A) :
  l !! i = Some x →
  sum_list (f <$> <[i:=y]> l) + f x = sum_list (f <$> l) + f y.
Proof.
  revert i. induction l as [|a l IH]; intros [|i] Hi; try done.
  - injection Hi as ->.
    change (f y + sum_list (f <$> l) + f x = f x + sum_list (f <$> l) + f y).
    lia.
  - specialize (IH i Hi).
    change (f a + sum_list (f <$> <[i:=y]> l) + f x
            = f a + sum_list (f <$> l) + f y).
    lia.
Qed.

Lemma success_toasts_snoc evs e :
  success_toasts (evs ++ [e])
  = success_toasts evs ++ match e with EToastSuccess m => [m] | _ => [] end.
Proof.
  unfold success_toasts. rewrite omap_app. cbn.
  destruct e; by rewrite ?app_nil_r.
Qed.

Lemma remote_calls_snoc evs e :
  remote_calls (evs ++ [e])
  = remote_calls evs ++ match e with ERemote r => [r] | _ => [] end.
Proof.
  unfold remote_calls. rewrite omap_app. cbn.
  destruct e; by rewrite ?app_nil_r.
Qed.

Section UploadTrace.
Context (projectId : string) (env : Backend) (tk : token)
        (files : list File).

Local Abbreviation upload_inv := (upload_inv projectId env tk files).
Local Abbreviation batch_event := (batch_event projectId env tk files).
Local Abbreviation batch_progress :=
  (batch_progress projectId env tk files).
Local Abbreviation resume := (resume projectId env tk files).

Lemma batch_progress_refl bw : batch_progress bw bw.
Proof. exists []. rewrite app_nil_r. cbn. by split; [|split]. Qed.

Lemma batch_progress_trans bw1 bw2 bw3 :
  batch_progress bw1 bw2 → batch_progress bw2 bw3 → batch_progress bw1 bw3.
Proof.
  intros (e1 & Ht1 & Hf1 & Hc1) (e2 & Ht2 & Hf2 & Hc2).
  exists (e1 ++ e2). rewrite Ht2, Ht1, (assoc_L (++)).
  split; [done|]. split; [by apply Forall_app|].
  unfold remote_calls in *. rewrite omap_app, length_app. lia.
Qed.

Lemma batch_progress_step bw i (s s' : stage) (b' : Batch) (e : event) :
  pipelines bw.1 !! i = Some s →
  pipelines b' = <[i:=s']> (pipelines bw.1) →
  batch_event e →
  ((if e is ERemote _ then 1 else 0) + calls_left s' ≤ calls_left s)%nat →
  batch_progress bw (b', log e bw.2).
Proof.
  intros Hs Hb He Hle. exists [e]. cbn. split; [done|].
  split; [by apply Forall_singleton|].
  rewrite Hb. pose proof (sum_list_insert calls_left _ i s s' Hs).
  destruct e; cbn in *; lia.
Qed.

Lemma batch_progress_silent bw i (s : stage) (b' : Batch) :
  pipelines bw.1 !! i = Some s →
  pipelines b' = <[i:=Settled]> (pipelines bw.1) →
  batch_progress bw (b', bw.2).
Proof.
  intros Hs Hb. exists []. rewrite app_nil_r. cbn. split; [done|].
  split; [done|].
  rewrite Hb. pose proof (sum_list_insert calls_left _ i s Settled Hs).
  cbn in *. lia.
Qed.

Lemma resume_progress w0 bw i :
  upload_inv w0 bw → batch_progress bw (resume bw i).
Proof.
  intros Hinv. unfold resume.
  destruct (pipelines bw.1 !! i) as [s|] eqn:Hs;
    [|apply batch_progress_refl].
  destruct (files !! i) as [file|] eqn:Hf;
    [|destruct s; apply batch_progress_refl].
  pose proof (inv_consistent projectId env tk files _ _ Hinv i s file Hs Hf)
    as Hc.
  destruct s as [|target|key|]; cbn in Hc.
  - destruct (post_upload_url env i _) as [target| |] eqn:Hr.
    + eapply batch_progress_step; [done|done| |cbn; lia].
      right. left. by exists i, file, target.
    + eapply (batch_progress_step _ _ _ Settled); [done|done| |cbn; lia].
      left. exists i, file. unfold pipeline_result. by rewrite Hr.
    + apply batch_progress_refl.
  - destruct (put_s3 env i _) as [[]| |] eqn:Hp.
    + eapply batch_progress_step; [done|done| |cbn; lia].
      right. right. by exists i, file, target.
    + eapply (batch_progress_step _ _ _ Settled); [done|done| |cbn; lia].
      left. exists i, file. unfold pipeline_result. by rewrite Hc, Hp.
    + apply batch_progress_refl.
  - destruct Hc as (target & Hr & Hp & ->).
    destruct (post_confirm env i _) as [d| |] eqn:Hd.
    + by eapply batch_progress_silent.
    + eapply (batch_progress_step _ _ _ Settled); [done|done| |cbn; lia].
      left. exists i, file. unfold pipeline_result. by rewrite Hr, Hp.
    + apply batch_progress_refl.
  - apply batch_progress_refl.
Qed.

Lemma foldl_progress w0 bw (l : list nat) :
  upload_inv w0 bw → batch_progress bw (foldl resume bw l).
Proof.
  revert bw. induction l as [|i l IH]; intros bw Hinv; cbn.
  - apply batch_progress_refl.
  - eapply batch_progress_trans; [by eapply resume_progress|].
    by apply IH, upload_inv_resume.
Qed.

Lemma start_calls_left (w : World) :
  sum_list (calls_left <$> pipelines (start_uploads projectId tk files w).1)
  = 2 * length files.
Proof.
  cbn. induction files as [|f fs IH]; [done|].
  change (2 + sum_list (calls_left <$> ((λ _, AwaitReserve) <$> fs))
          = 2 * S (length fs)).
  rewrite IH. lia.
Qed.

(** The trace of a batch: the upload-url requests in file order, then
    events of the pipelines with at most two more calls per file. *)
Lemma run_uploads_trace schedule (w : World) :
  ∃ evs,
    trace (run_uploads projectId env tk files schedule w).2
    = trace w
      ++ ((λ file, ERemote (reserve_request projectId tk file)) <$> files)
      ++ evs ∧
    Forall batch_event evs ∧
    (length (remote_calls evs) ≤ 2 * length files)%nat.
Proof.
  destruct (foldl_progress w (start_uploads projectId tk files w) schedule
              (upload_inv_start projectId env tk files w))
    as (evs & Ht & Hf & Hc).
  exists evs. unfold run_uploads. rewrite Ht.
  rewrite (proj1 (start_trace projectId tk files w)), (assoc_L (++)).
  split; [done|]. split; [done|].
  rewrite start_calls_left in Hc. lia.
Qed.

End UploadTrace.

Lemma batch_event_quiet projectId env tk files (evs : list event) :
  Forall (batch_event projectId env tk files) evs →
  success_toasts evs = [] ∧ set_data_values evs = [].
Proof.
  induction 1 as [|e evs He _ [IH1 IH2]]; [done|].
  destruct He as [(i & f & _ & _ & ->)|[(i & f & t & _ & _ & ->)
                                       |(i & f & t & _ & _ & _ & ->)]];
    by cbn.
Qed.

(** The upload handler, once the identity and the token are there. *)
Lemma handleDocumentUpload_unfold userId projectId env tk files schedule
    (w : World) :
  falsy userId = false → getToken env = Fulfilled tk →
  let bw := run_uploads projectId env tk files schedule (log EGetToken w) in
  let ups := uploadedDocuments bw.1 in
  handleDocumentUpload userId projectId env files schedule w
  = if all_settled bw.1 then
      if bool_decide (0 < length ups) then
        (setData (prepend_documents ups);;
         toast_success (pretty (length ups) +:+ " file(s) uploaded")) bw.2
      else (Fulfilled tt, bw.2)
    else (Pending, bw.2).
Proof.
  intros Hu Htk. cbv zeta. unfold handleDocumentUpload. rewrite Hu.
  unfold mbind at 1, M_bind at 1, call_getToken, await. rewrite Htk.
  unfold mbind at 1, M_bind at 1, Promise_allSettled.
  destruct (all_settled _); cbn [fst snd]; [|done].
  by case_bool_decide.
Qed.

(** What a run of the upload handler leaves behind, for any schedule. *)
Lemma handleDocumentUpload_shape userId projectId env tk files schedule
    (w : World) :
  falsy userId = false → getToken env = Fulfilled tk →
  let b := (run_uploads projectId env tk files schedule w).1 in
  let ups := uploadedDocuments b in
  let merged := all_settled b && bool_decide (0 < length ups) in
  let r := handleDocumentUpload userId projectId env files schedule w in
  ∃ bevs,
    Forall (batch_event projectId env tk files) bevs ∧
    (length (remote_calls bevs) ≤ 2 * length files)%nat ∧
    error_toasts bevs ≡ₚ gather files (toasted projectId env tk files)
                            (pipelines b) ∧
    ups ≡ₚ gather files (pushed projectId env tk files) (pipelines b) ∧
    upload_inv projectId env tk files (log EGetToken w)
      (run_uploads projectId env tk files schedule (log EGetToken w)) ∧
    trace r.2
    = trace w ++ [EGetToken]
      ++ ((λ file, ERemote (reserve_request projectId tk file)) <$> files)
      ++ bevs
      ++ (if merged
          then [ESetData (prepend_documents ups (st_data w));
                EToastSuccess
                  (pretty (length ups) +:+ " file(s) uploaded")]
          else []) ∧
    r.1 = (if all_settled b then Fulfilled tt else Pending) ∧
    st_data r.2
    = if merged then prepend_documents ups (st_data w) else st_data w.
Proof.
  intros Hu Htk b ups merged r. subst r.
  rewrite (handleDocumentUpload_unfold userId projectId env tk files
             schedule w Hu Htk). cbv zeta.
  subst merged ups b.
  rewrite (run_uploads_batch projectId env tk files schedule w
             (log EGetToken w)).
  pose proof (upload_inv_run projectId env tk files (log EGetToken w)
                schedule) as Hinv.
  destruct (run_uploads_trace projectId env tk files schedule
              (log EGetToken w)) as (bevs & Ht & Hf & Hc).
  destruct Hinv as [Hlen Hcons Hpush Hdata (evs & Htr & Htoast & Hset)] eqn:E.
  clear E.
  set (bw := run_uploads projectId env tk files schedule (log EGetToken w))
    in *.
  assert (Hevs : evs
    = ((λ file, ERemote (reserve_request projectId tk file)) <$> files)
      ++ bevs).
  { rewrite Htr in Ht. by apply app_inv_head in Ht. }
  assert (Htoast' : error_toasts bevs
    ≡ₚ gather files (toasted projectId env tk files) (pipelines bw.1)).
  { rewrite <- Htoast, Hevs. unfold error_toasts. rewrite omap_app.
    fold (error_toasts ((λ file, ERemote (reserve_request projectId tk file))
                          <$> files)).
    by rewrite (proj1 (remote_only_trace (reserve_request projectId tk)
                         files)). }
  exists bevs. split; [done|]. split; [done|]. split; [done|].
  split; [done|]. split; [by split; eauto|].
  cbn in Ht, Hdata.
  destruct (all_settled bw.1); cbn [andb].
  - case_bool_decide.
    + run_handler. rewrite Ht, Hdata. split; [|done].
      by rewrite <- !(assoc_L (++)).
    + cbn [fst snd]. rewrite Ht, Hdata, app_nil_r.
      by rewrite <- !(assoc_L (++)).
  - cbn [fst snd]. rewrite Ht, Hdata, app_nil_r.
    by rewrite <- !(assoc_L (++)).
Qed.

Lemma flat_map_split_count {A B} (f : nat → list A) (g : nat → list B)
    (l : list nat) :
  (∀ i, i ∈ l → length (f i) + length (g i) = 1) →
  length (flat_map f l) + length (flat_map g l) = length l.
Proof.
  induction l as [|i l IH]; [done|]. intros H. cbn.
  rewrite !length_app. pose proof (H i ltac:(left)).
  rewrite <- IH; [lia|]. intros j Hj. apply H. by right.
Qed.

Lemma settled_partition projectId env tk files (ps : list stage) :
  length ps = length files →
  (∀ i s file, ps !! i = Some s → files !! i = Some file →
               consistent projectId env tk i file s) →
  forallb (λ s, match s with Settled => true | _ => false end) ps = true →
  length (confirmed_documents projectId env tk files)
  + length (failed_uploads projectId env tk files) = length files.
Proof.
  intros Hlen Hcons Hall.
  unfold confirmed_documents, failed_uploads. rewrite !gather_settled.
  rewrite flat_map_split_count; [by rewrite length_seq|].
  intros i Hi. apply elem_of_seq in Hi.
  destruct (lookup_lt_is_Some_2 files i) as [f Hf]; [lia|].
  destruct (lookup_lt_is_Some_2 ps i) as [s Hs]; [lia|].
  pose proof (Hcons i s f Hs Hf) as Hc.
  rewrite forallb_forall in Hall.
  assert (Hin : In s ps)
    by (apply list_elem_of_In; by eapply list_elem_of_lookup_2).
  specialize (Hall s Hin). destruct s; try done. cbn in Hc.
  unfold pushed, toasted. rewrite Hf.
  by destruct (pipeline_result projectId env tk i f).
Qed.

(** X14. The empty batch: with an identity and a token, uploading no file
    ends normally whatever the schedule; the token is asked for and nothing
    else happens: no request, no toast, no change of the snapshot. *)
Theorem handleDocumentUpload_empty userId projectId env tk schedule
    (w : World) :
  falsy userId = false →
  getToken env = Fulfilled tk →
  let r := handleDocumentUpload userId projectId env [] schedule w in
  r.1 = Fulfilled tt ∧
  st_data r.2 = st_data w ∧
  trace r.2 = trace w ++ [EGetToken].
Proof.
  intros Hu Htk.
  destruct (handleDocumentUpload_shape userId projectId env tk [] schedule w
              Hu Htk)
    as (bevs & Hf & Hc & _ & Hups & Hinv & Ht & Hr & Hd).
  pose proof (inv_length _ _ _ _ _ _ Hinv) as Hlen.
  rewrite (run_uploads_batch projectId env tk [] schedule (log EGetToken w) w)
    in Hlen.
  set (b := (run_uploads projectId env tk [] schedule w).1) in *.
  cbn in Hlen. apply nil_length_inv in Hlen.
  assert (Hall : all_settled b = true) by (unfold all_settled; by rewrite Hlen).
  assert (Hnil : uploadedDocuments b = []).
  { unfold gather in Hups. cbn in Hups. by apply Permutation_nil_r in Hups. }
  assert (bevs = []) as ->.
  { destruct bevs as [|e bevs]; [done|]. apply Forall_cons in Hf as [He _].
    destruct He as [(i & f & Hi & _)|[(i & f & t & Hi & _)
                                     |(i & f & t & Hi & _)]];
      by rewrite lookup_nil in Hi. }
  rewrite Hall, Hnil in *. cbn in Ht, Hd. cbv zeta. by rewrite Hr, Hd, Ht.
Qed.

Lemma handleDocumentUpload_empty_witness :
  trace (handleDocumentUpload (Some "user_1") "p1" good_backend [] [0; 1]
           loaded_world).2 = [EGetToken].
Proof.
  apply (handleDocumentUpload_empty (Some "user_1") "p1" good_backend
           (Some "jwt") [0; 1] loaded_world eq_refl eq_refl).
Defined.

(** X15. What a settled batch amounts to, whatever the mix of successes
    and failures and whatever the order of completion: the handler ends
    normally; the documents that reached confirmation, in some order, are
    put in front of the prior documents; the error toasts are those of the
    rejected items; a success toast with the number of merged documents is
    shown exactly when at least one was merged; and every file is either
    merged or reported, so the two counts add up to the size of the
    batch. *)
Theorem handleDocumentUpload_settled userId projectId env tk files schedule
    (w : World) :
  falsy userId = false →
  getToken env = Fulfilled tk →
  all_settled (run_uploads projectId env tk files schedule w).1 = true →
  let r := handleDocumentUpload userId projectId env files schedule w in
  r.1 = Fulfilled tt ∧
  ∃ group evs,
    st_data r.2 = prepend_documents group (st_data w) ∧
    group ≡ₚ confirmed_documents projectId env tk files ∧
    trace r.2 = trace w ++ evs ∧
    error_toasts evs ≡ₚ failed_uploads projectId env tk files ∧
    success_toasts evs
    = (if decide (group = []) then []
       else [pretty (length group) +:+ " file(s) uploaded"]) ∧
    length group + length (error_toasts evs) = length files.
Proof.
  intros Hu Htk Hall.
  destruct (handleDocumentUpload_shape userId projectId env tk files
              schedule w Hu Htk)
    as (bevs & Hf & Hc & Hto & Hups & Hinv & Ht & Hr & Hd).
  destruct Hinv as [Hlen Hcons _ _ _].
  rewrite (run_uploads_batch projectId env tk files schedule
             (log EGetToken w) w) in Hlen, Hcons.
  set (b := (run_uploads projectId env tk files schedule w).1) in *.
  rewrite Hall in *. cbn [andb] in *.
  pose proof (all_settled_pipelines files b Hlen Hall) as Hps.
  rewrite Hps in Hto, Hups.
  fold (confirmed_documents projectId env tk files) in Hups.
  fold (failed_uploads projectId env tk files) in Hto.
  destruct (batch_event_quiet _ _ _ _ _ Hf) as [Hs _].
  cbv zeta. split; [done|].
  exists (uploadedDocuments b). eexists. split.
  { rewrite Hd. case_bool_decide as Hpos; [done|].
    destruct (uploadedDocuments b); [|cbn in Hpos; lia].
    by rewrite prepend_documents_nil. }
  split; [done|]. split; [exact Ht|].
  assert (Herr : ∀ tail, error_toasts tail = [] →
    error_toasts ([EGetToken]
      ++ ((λ file, ERemote (reserve_request projectId tk file)) <$> files)
      ++ bevs ++ tail) = error_toasts bevs).
  { intros tail Htail. unfold error_toasts in *.
    rewrite !omap_app, Htail, app_nil_r. cbn.
    fold (error_toasts ((λ file, ERemote (reserve_request projectId tk file))
                          <$> files)).
    by rewrite (proj1 (remote_only_trace (reserve_request projectId tk)
                         files)). }
  assert (Hsuc : ∀ tail,
    success_toasts ([EGetToken]
      ++ ((λ file, ERemote (reserve_request projectId tk file)) <$> files)
      ++ bevs ++ tail) = success_toasts tail).
  { intros tail. unfold success_toasts in *.
    rewrite !omap_app, Hs. cbn.
    clear. induction files as [|f fs IH]; [done|]. cbn. apply IH. }
  rewrite Hsuc. split; [by rewrite Herr by (by case_bool_decide)|].
  split.
  - case_bool_decide as Hpos.
    + rewrite decide_False; [done|]. intros E. rewrite E in Hpos.
      cbn in Hpos. lia.
    + rewrite decide_True; [done|].
      destruct (uploadedDocuments b); [done|cbn in Hpos; lia].
  - rewrite Herr by (by case_bool_decide). rewrite Hups, Hto.
    by apply (settled_partition projectId env tk files (pipelines b)).
Qed.

Lemma handleDocumentUpload_settled_witness :
  let r := handleDocumentUpload (Some "user_1") "p1" good_backend
             [fileA; fileB; fileC] [1; 0; 2; 2; 0; 0; 2] loaded_world in
  ∃ group evs,
    st_data r.2 = prepend_documents group loaded_data ∧
    success_toasts evs
    = (if decide (group = []) then []
       else [pretty (length group) +:+ " file(s) uploaded"]) ∧
    length group + length (error_toasts evs) = 3.
Proof.
  destruct (handleDocumentUpload_settled (Some "user_1") "p1" good_backend
              (Some "jwt") [fileA; fileB; fileC] [1; 0; 2; 2; 0; 0; 2]
              loaded_world eq_refl eq_refl eq_refl)
    as (_ & group & evs & Hd & _ & _ & _ & Hs & Hl).
  by exists group, evs.
Defined.

Lemma remote_calls_app evs evs' :
  remote_calls (evs ++ evs') = remote_calls evs ++ remote_calls evs'.
Proof. unfold remote_calls. by rewrite omap_app. Qed.

Lemma remote_calls_reserve projectId tk (files : list File) :
  remote_calls ((λ file, ERemote (reserve_request projectId tk file)) <$> files)
  = reserve_request projectId tk <$> files.
Proof. induction files as [|f fs IH]; [done|]. cbn. by rewrite <- IH. Qed.

Lemma remote_calls_upload_tail (merged : bool) d msg :
  remote_calls (if merged then [ESetData d; EToastSuccess msg] else []) = [].
Proof. by destruct merged. Qed.

(** X16. The stages of a pipeline come in order, for any schedule, settled
    or not: every call of the upload handler is the upload-url request of a
    file of the batch, or a transfer to the target that the upload-url
    request of that very item returned, or a confirm of the key of an item
    whose upload-url request and transfer both succeeded.  So nothing is
    sent to storage without a reserved target, and nothing is confirmed
    that was not transferred. *)
Theorem upload_calls_follow_stages userId projectId env tk files schedule
    (w : World) :
  falsy userId = false →
  getToken env = Fulfilled tk →
  let r := handleDocumentUpload userId projectId env files schedule w in
  ∃ evs, trace r.2 = trace w ++ evs ∧
    ∀ c, c ∈ remote_calls evs →
      (∃ file, file ∈ files ∧ c = reserve_request projectId tk file) ∨
      (∃ i file target, files !! i = Some file ∧
         post_upload_url env i (reserve_request projectId tk file)
         = Fulfilled target ∧
         c = transfer_request target file) ∨
      (∃ i file target, files !! i = Some file ∧
         post_upload_url env i (reserve_request projectId tk file)
         = Fulfilled target ∧
         put_s3 env i (transfer_request target file) = Fulfilled tt ∧
         c = confirm_request projectId tk (s3_key target)).
Proof.
  intros Hu Htk.
  destruct (handleDocumentUpload_shape userId projectId env tk files
              schedule w Hu Htk)
    as (bevs & Hf & _ & _ & _ & _ & Ht & _).
  cbv zeta. eexists. split; [exact Ht|].
  intros c. rewrite !remote_calls_app, remote_calls_reserve,
    remote_calls_upload_tail, app_nil_r. cbn.
  intros [Hc|Hc]%elem_of_app.
  - apply list_elem_of_fmap in Hc as (f & -> & Hin). left. eauto.
  - unfold remote_calls in Hc. apply list_elem_of_omap in Hc as (e & He & Hc).
    rewrite Forall_forall in Hf. specialize (Hf e He).
    destruct Hf as [(i & f & _ & _ & ->)|[(i & f & t & ? & ? & ->)
                                         |(i & f & t & ? & ? & ? & ->)]];
      [done| |]; injection Hc as <-; right; [left|right]; eauto 10.
Qed.

Lemma upload_calls_follow_stages_witness :
  ∃ evs,
    trace (handleDocumentUpload (Some "user_1") "p1" good_backend
             [fileA; fileB] [0; 1; 0] loaded_world).2 = [] ++ evs ∧
    length (remote_calls evs) = 4.
Proof.
  destruct (upload_calls_follow_stages (Some "user_1") "p1" good_backend
              (Some "jwt") [fileA; fileB] [0; 1; 0] loaded_world
              eq_refl eq_refl) as (evs & Ht & _).
  exists evs. split; [exact Ht|].
  cbn in Ht. by subst evs.
Defined.

(** X17. The calls of a batch, for any schedule and any answers: first one
    upload-url request per file, in file order, then at most two more calls
    per file.  A batch of [N] files never issues more than [3 N] calls:
    nothing is retried. *)
Theorem upload_calls_bounded userId projectId env tk files schedule
    (w : World) :
  falsy userId = false →
  getToken env = Fulfilled tk →
  let r := handleDocumentUpload userId projectId env files schedule w in
  ∃ evs rest, trace r.2 = trace w ++ evs ∧
    remote_calls evs = (reserve_request projectId tk <$> files) ++ rest ∧
    (length rest ≤ 2 * length files)%nat ∧
    (length (remote_calls evs) ≤ 3 * length files)%nat.
Proof.
  intros Hu Htk.
  destruct (handleDocumentUpload_shape userId projectId env tk files
              schedule w Hu Htk)
    as (bevs & _ & Hc & _ & _ & _ & Ht & _).
  cbv zeta. eexists. exists (remote_calls bevs). split; [exact Ht|].
  rewrite !remote_calls_app, remote_calls_reserve,
    remote_calls_upload_tail, app_nil_r. cbn.
  split; [done|]. split; [done|].
  rewrite length_app, length_fmap. lia.
Qed.

Lemma upload_calls_bounded_witness :
  ∃ evs,
    trace (handleDocumentUpload (Some "user_1") "p1" good_backend
             [fileA; fileB; fileC] [2; 1; 0; 2; 0; 2; 0] loaded_world).2
    = [] ++ evs ∧
    (length (remote_calls evs) ≤ 9)%nat.
Proof.
  destruct (upload_calls_bounded (Some "user_1") "p1" good_backend
              (Some "jwt") [fileA; fileB; fileC] [2; 1; 0; 2; 0; 2; 0]
              loaded_world eq_refl eq_refl) as (evs & rest & Ht & _ & _ & Hl).
  by exists evs.
Defined.

(** X18. One hanging item holds back the whole batch: if a call of some
    item never settles, then for every schedule the handler is still
    waiting, no snapshot has been installed and the documents are the prior
    ones, even when every other item has been confirmed. *)
Theorem upload_pending_item_blocks userId projectId env tk files i file
    schedule (w : World) :
  falsy userId = false →
  getToken env = Fulfilled tk →
  files !! i = Some file →
  pipeline_result projectId env tk i file = Pending →
  let r := handleDocumentUpload userId projectId env files schedule w in
  r.1 = Pending ∧
  st_data r.2 = st_data w ∧
  ∃ evs, trace r.2 = trace w ++ evs ∧
         set_data_values evs = [] ∧ success_toasts evs = [].
Proof.
  intros Hu Htk Hfile Hpend.
  destruct (handleDocumentUpload_shape userId projectId env tk files
              schedule w Hu Htk)
    as (bevs & Hf & _ & _ & _ & Hinv & Ht & Hr & Hd).
  destruct Hinv as [Hlen Hcons _ _ _].
  rewrite (run_uploads_batch projectId env tk files schedule
             (log EGetToken w) w) in Hlen, Hcons.
  set (b := (run_uploads projectId env tk files schedule w).1) in *.
  assert (Hall : all_settled b = false).
  { destruct (all_settled b) eqn:Hall; [|done]. exfalso.
    pose proof (all_settled_pipelines files b Hlen Hall) as Hps.
    apply (Hcons i Settled file); [|done..].
    rewrite Hps, list_lookup_fmap, Hfile. done. }
  rewrite Hall in *. cbn [andb] in *. cbv zeta.
  split; [done|]. split; [done|]. eexists. split; [exact Ht|].
  destruct (batch_event_quiet _ _ _ _ _ Hf) as [Hs Hset].
  rewrite app_nil_r. unfold set_data_values, success_toasts in *.
  rewrite !omap_app, Hs, Hset. cbn.
  clear. split; induction files as [|f fs IH]; try done; cbn; apply IH.
Qed.

Lemma upload_pending_item_blocks_witness :
  (handleDocumentUpload (Some "user_1") "p1"
     {| getToken := Fulfilled (Some "jwt");
        get_project := get_project good_backend;
        get_chats := get_chats good_backend;
        get_files := get_files good_backend;
        get_settings := get_settings good_backend;
        post_chat := post_chat good_backend;
        delete_any := delete_any good_backend;
        post_upload_url := post_upload_url good_backend;
        put_s3 := λ i _, if decide (i = 0) then Pending else Fulfilled tt;
        post_confirm := post_confirm good_backend;
        post_url := post_url good_backend;
        put_settings := put_settings good_backend;
        now := 0 |}
     [fileA; fileC] [0; 1; 0; 1; 0; 1] loaded_world).1 = Pending.
Proof.
  eapply (upload_pending_item_blocks (Some "user_1") "p1" _ (Some "jwt")
            [fileA; fileC] 0 fileA); reflexivity.
Defined.

(** ** Calls, flags and frames of all the operations *)

(** X19. No operation retries a call.  Whatever the identity and the
    answers of the backend: the load issues no call or exactly its four
    reads; the draft issues none; create-chat, the two deletes,
    add-from-url and publish issue at most one; and an upload of [N] files
    issues at most [3 N]. *)
Theorem operations_call_count userId projectId env op (w : World) :
  let r := perform userId projectId env op w in
  ∃ evs, trace r.2 = trace w ++ evs ∧
    match op with
    | LoadAllData =>
        length (remote_calls evs) = 0 ∨ length (remote_calls evs) = 4
    | DraftSettings _ => length (remote_calls evs) = 0
    | DocumentUpload files _ =>
        (length (remote_calls evs) ≤ 3 * length files)%nat
    | _ => (length (remote_calls evs) ≤ 1)%nat
    end.
Proof.
  cbv zeta.
  assert (Hnil : ∀ w' : World, w' = w →
            ∃ evs, trace w' = trace w ++ evs ∧ remote_calls evs = []).
  { intros w' ->. exists []. by rewrite app_nil_r. }
  destruct op; cbn [perform].
  - unfold loadAllData. destruct (falsy userId).
    { destruct (Hnil w eq_refl) as (evs & Ht & Hc). exists evs.
      rewrite Hc. cbn. auto. }
    run_handler. destruct (getToken env) as [tk| |]; cbn.
    + destruct (get_project env _), (get_chats env _),
        (get_files env _), (get_settings env _); cbn;
        eexists; (split; [rewrite <- ?(assoc_L (++)); reflexivity|]);
        cbn; auto.
    + eexists. split; [rewrite <- ?(assoc_L (++)); reflexivity|]. cbn. auto.
    + eexists. split; [rewrite <- ?(assoc_L (++)); reflexivity|]. cbn. auto.
  - unfold handleCreateNewChat. destruct (falsy userId).
    { destruct (Hnil w eq_refl) as (evs & Ht & Hc). exists evs.
      rewrite Hc. cbn. auto. }
    run_handler. destruct (getToken env) as [tk| |]; cbn;
      [destruct (post_chat env _); cbn|..];
      eexists; (split; [rewrite <- ?(assoc_L (++)); reflexivity|]);
      cbn; lia.
  - unfold handleDeleteChat. destruct (falsy userId).
    { destruct (Hnil w eq_refl) as (evs & Ht & Hc). exists evs.
      rewrite Hc. cbn. auto. }
    run_handler. destruct (getToken env) as [tk| |]; cbn;
      [destruct (delete_any env _); cbn|..];
      eexists; (split; [rewrite <- ?(assoc_L (++)); reflexivity|]);
      cbn; lia.
  - destruct (falsy userId) eqn:Hu.
    { unfold handleDocumentUpload. rewrite Hu.
      destruct (Hnil w eq_refl) as (evs & Ht & Hc). exists evs.
      rewrite Hc. cbn. split; [done|lia]. }
    destruct (getToken env) as [tk| |] eqn:Htk.
    + destruct (handleDocumentUpload_shape userId projectId env tk files
                  schedule w Hu Htk)
        as (bevs & _ & Hc & _ & _ & _ & Ht & _).
      eexists. split; [exact Ht|].
      rewrite !remote_calls_app, remote_calls_reserve,
        remote_calls_upload_tail, app_nil_r. cbn.
      rewrite length_app, length_fmap. lia.
    + unfold handleDocumentUpload. rewrite Hu.
      unfold mbind, M_bind, call_getToken, await. rewrite Htk. cbn.
      eexists. split; [reflexivity|]. cbn. lia.
    + unfold handleDocumentUpload. rewrite Hu.
      unfold mbind, M_bind, call_getToken, await. rewrite Htk. cbn.
      eexists. split; [reflexivity|]. cbn. lia.
  - unfold handleDocumentDelete. destruct (falsy userId).
    { destruct (Hnil w eq_refl) as (evs & Ht & Hc). exists evs.
      rewrite Hc. cbn. auto. }
    run_handler. destruct (getToken env) as [tk| |]; cbn;
      [destruct (delete_any env _); cbn|..];
      eexists; (split; [rewrite <- ?(assoc_L (++)); reflexivity|]);
      cbn; lia.
  - unfold handleUrlAdd. destruct (falsy userId).
    { destruct (Hnil w eq_refl) as (evs & Ht & Hc). exists evs.
      rewrite Hc. cbn. auto. }
    run_handler. destruct (getToken env) as [tk| |]; cbn;
      [destruct (post_url env _); cbn|..];
      eexists; (split; [rewrite <- ?(assoc_L (++)); reflexivity|]);
      cbn; lia.
  - unfold handleDraftSettings. run_handler.
    destruct (settings (st_data w)); cbn;
      eexists; (split; [rewrite <- ?(assoc_L (++)); reflexivity|]); done.
  - unfold handlePublishSettings.
    destruct (falsy userId), (settings data); cbn;
      try (eexists; (split; [reflexivity|]); cbn; lia).
    run_handler. destruct (getToken env) as [tk| |]; cbn;
      [destruct (put_settings env _); cbn|..];
      eexists; (split; [rewrite <- ?(assoc_L (++)); reflexivity|]);
      cbn; lia.
Qed.

(** X20. The flags of the load.  With an identity:
    - when the token or one of the reads is rejected, the load ends with
      [loading] false, the error "Failed to fetch data" stored and shown in
      one toast, and the prior snapshot;
    - when nothing is rejected and the token or a read never settles, the
      load stays pending with [loading] true, the former error cleared and
      the prior snapshot;
    - when the token and the four reads succeed, the load ends with
      [loading] false and no error, whatever error was stored before. *)
Theorem loadAllData_flags userId projectId env (w : World) :
  falsy userId = false →
  let r := loadAllData userId projectId env w in
  let failed evs :=
    r.1 = Fulfilled tt ∧ st_loading r.2 = false ∧
    st_error r.2 = Some "Failed to fetch data" ∧
    error_toasts evs = ["Failed to fetch data"] ∧ st_data r.2 = st_data w in
  let waiting evs :=
    r.1 = Pending ∧ st_loading r.2 = true ∧ st_error r.2 = None ∧
    error_toasts evs = [] ∧ st_data r.2 = st_data w in
  let loaded evs :=
    r.1 = Fulfilled tt ∧ st_loading r.2 = false ∧ st_error r.2 = None ∧
    error_toasts evs = [] in
  ∃ evs, trace r.2 = trace w ++ evs ∧
    match getToken env with
    | Rejected => failed evs
    | Pending => waiting evs
    | Fulfilled tk =>
        let p := get_project env (Get ("/api/projects/" +:+ projectId) tk) in
        let c := get_chats env
                   (Get ("/api/projects/" +:+ projectId +:+ "/chats") tk) in
        let d := get_files env
                   (Get ("/api/projects/" +:+ projectId +:+ "/files") tk) in
        let s := get_settings env
                   (Get ("/api/projects/" +:+ projectId +:+ "/settings") tk) in
        if is_rejected p || is_rejected c || is_rejected d || is_rejected s
        then failed evs
        else if is_pending p || is_pending c || is_pending d || is_pending s
        then waiting evs
        else loaded evs
    end.
Proof.
  intros Hu. cbv zeta. unfold loadAllData. rewrite Hu. run_handler.
  destruct (getToken env) as [tk| |]; cbn.
  - destruct (get_project env _), (get_chats env _),
      (get_files env _), (get_settings env _); cbn;
      eexists; (split; [rewrite <- ?(assoc_L (++)); reflexivity|]); done.
  - eexists. split; [rewrite <- ?(assoc_L (++)); reflexivity|]. done.
  - eexists. split; [rewrite <- ?(assoc_L (++)); reflexivity|]. done.
Qed.

Lemma loadAllData_flags_witness :
  st_loading (loadAllData (Some "user_1") "p1" failing_backend
                initial_world).2 = false
  ∧ st_error (loadAllData (Some "user_1") "p1" failing_backend
                initial_world).2 = Some "Failed to fetch data".
Proof.
  destruct (loadAllData_flags (Some "user_1") "p1" failing_backend
              initial_world eq_refl) as (evs & _ & H).
  cbn in H. destruct H as (_ & Hl & He & _). by split.
Defined.

(** ** What is on the screen *)

(** X21. The screen after the load.
    - With no identity the load does nothing, so a page that shows the
      spinner keeps showing it.
    - With an identity, a load that fails on a page without project shows
      the not-found screen: the stored error text is not displayed.
    - With an identity, a load whose token and four reads succeed with a
      project shows the page with the loaded chats, documents and
      settings, no error and the modal of the selected document. *)
Theorem render_after_load userId projectId env ui (w : World) :
  let w' := (loadAllData userId projectId env w).2 in
  (falsy userId = true → st_loading w = true →
   render w' ui = LoadingSpinner "Loading project...") ∧
  (falsy userId = false → project (st_data w) = None →
   (getToken env = Rejected ∨
    ∃ tk, getToken env = Fulfilled tk ∧
      is_rejected
        (get_project env (Get ("/api/projects/" +:+ projectId) tk))
      || is_rejected
           (get_chats env
              (Get ("/api/projects/" +:+ projectId +:+ "/chats") tk))
      || is_rejected
           (get_files env
              (Get ("/api/projects/" +:+ projectId +:+ "/files") tk))
      || is_rejected
           (get_settings env
              (Get ("/api/projects/" +:+ projectId +:+ "/settings") tk))
      = true) →
   render w' ui = NotFound "Project not found" ∧
   st_error w' = Some "Failed to fetch data") ∧
  (∀ tk p c d s,
     falsy userId = false → getToken env = Fulfilled tk →
     get_project env (Get ("/api/projects/" +:+ projectId) tk)
     = Fulfilled (Some p) →
     get_chats env (Get ("/api/projects/" +:+ projectId +:+ "/chats") tk)
     = Fulfilled c →
     get_files env (Get ("/api/projects/" +:+ projectId +:+ "/files") tk)
     = Fulfilled d →
     get_settings env
       (Get ("/api/projects/" +:+ projectId +:+ "/settings") tk)
     = Fulfilled s →
     render w' ui
     = Page {| cl_project := p; cl_conversations := c; cl_error := None;
               cl_loading := st_isCreatingChat w |}
            {| kb_activeTab := activeTab ui; kb_projectDocuments := d;
               kb_projectSettings := s; kb_settingsError := None;
               kb_settingsLoading := false |}
            (selectedDocument (selectedDocumentId ui)
               {| project := Some p; chats := c; documents := d;
                  settings := s |})).
Proof.
  cbv zeta. split; [|split].
  - intros Hu Hl. unfold loadAllData. rewrite Hu. cbn.
    unfold render. by rewrite Hl.
  - intros Hu Hp Hfail. unfold loadAllData. rewrite Hu. run_handler.
    destruct Hfail as [Htk|(tk & Htk & Hg)]; rewrite Htk; cbn.
    + unfold render; cbn. by rewrite Hp.
    + destruct (get_project env _), (get_chats env _),
        (get_files env _), (get_settings env _); try done; cbn;
        unfold render; cbn; by rewrite Hp.
  - intros tk p c d s Hu Htk Hp Hc Hd Hs. unfold loadAllData. rewrite Hu.
    run_handler. rewrite Htk, Hp, Hc, Hd, Hs. cbn. done.
Qed.

Lemma render_after_load_witness :
  render (loadAllData (Some "user_1") "p1" failing_backend initial_world).2
    {| activeTab := DocumentsTab; selectedDocumentId := None |}
  = NotFound "Project not found"
  ∧ render (loadAllData None "p1" good_backend initial_world).2
      {| activeTab := DocumentsTab; selectedDocumentId := None |}
    = LoadingSpinner "Loading project...".
Proof.
  split.
  - apply (render_after_load (Some "user_1") "p1" failing_backend
             {| activeTab := DocumentsTab; selectedDocumentId := None |}
             initial_world); [reflexivity..|].
    right. by exists (Some "jwt").
  - apply (render_after_load None "p1" good_backend
             {| activeTab := DocumentsTab; selectedDocumentId := None |}
             initial_world); reflexivity.
Defined.

Lemma find_first_spec {A} (P : A → bool) (l : list A) :
  match find P l with
  | Some x =>
      ∃ i, l !! i = Some x ∧ P x = true ∧
           ∀ j y, j < i → l !! j = Some y → P y = false
  | None => ∀ y, y ∈ l → P y = false
  end.
Proof.
  induction l as [|a l IH]; cbn.
  - intros y Hy. by apply elem_of_nil in Hy.
  - destruct (P a) eqn:Ha.
    + exists 0. split; [done|]. split; [done|]. intros j y Hj. lia.
    + destruct (find P l) as [x|].
      * destruct IH as (i & Hi & Hx & Hbefore). exists (S i).
        split; [done|]. split; [done|].
        intros [|j] y Hj Hy; cbn in Hy; [by injection Hy as <-|].
        eapply Hbefore; [|done]. lia.
      * intros y [->|Hy]%elem_of_cons; [done|by apply IH].
Qed.

(** X22. The selected document.  When the lookup finds a document, the
    selected id is a non-empty string, the document carries that id and it
    is the first one of the sequence that does.  When it finds none, the
    selected id is null or empty, or no document of the sequence carries
    it: the modal is shown exactly for an id that is present. *)
Theorem selectedDocument_spec (sel : option string) (data : ProjectData) :
  match selectedDocument sel data with
  | Some d =>
      ∃ id i, sel = Some id ∧ id ≠ "" ∧ doc_id d = id ∧
              documents data !! i = Some d ∧
              ∀ j d', j < i → documents data !! j = Some d' → doc_id d' ≠ id
  | None =>
      falsy sel = true ∨ ∃ id, sel = Some id ∧ id ∉ document_ids data
  end.
Proof.
  unfold selectedDocument. destruct (falsy sel) eqn:Hf; [by left|].
  destruct sel as [id|]; [|done]. cbn in Hf.
  apply bool_decide_eq_false in Hf.
  pose proof (find_first_spec
                (λ doc, bool_decide (Some (doc_id doc) = Some id))
                (documents data)) as H.
  destruct (find _ _) as [d|].
  - destruct H as (i & Hi & Hd & Hbefore).
    apply bool_decide_eq_true in Hd. injection Hd as Hd.
    exists id, i. repeat split; try done.
    intros j d' Hj Hd' E. specialize (Hbefore j d' Hj Hd').
    apply bool_decide_eq_false in Hbefore. apply Hbefore. by rewrite E.
  - right. exists id. split; [done|].
    intros (d & -> & Hd)%list_elem_of_fmap. specialize (H d Hd).
    by apply bool_decide_eq_false in H.
Qed.

Lemma find_filter_implied {A} (P : A → bool) (Q : A → Prop)
    `{∀ x, Decision (Q x)} (l : list A) :
  (∀ x, P x = true → Q x) → find P (filter Q l) = find P l.
Proof.
  intros HPQ. induction l as [|a l IH]; [done|].
  destruct (decide (Q a)) as [Hq|Hq].
  - rewrite filter_cons_True by done. cbn. by rewrite IH.
  - rewrite filter_cons_False by done. cbn.
    destruct (P a) eqn:Ha; [by destruct (Hq (HPQ a Ha))|done].
Qed.

(** X23. Deleting a document and the modal: after a successful delete of a
    document id, the lookup of that id finds nothing, so an open modal of the
    deleted document goes away without [selectedDocumentId] being reset;
    the lookup of any other id gives what it gave before. *)
Theorem delete_closes_modal userId projectId env tk documentId (w : World) :
  falsy userId = false →
  getToken env = Fulfilled tk →
  delete_any env
    (Delete ("/api/projects/" +:+ projectId +:+ "/files/" +:+ documentId) tk)
  = Fulfilled tt →
  let w' := (handleDocumentDelete userId projectId env documentId w).2 in
  selectedDocument (Some documentId) (st_data w') = None ∧
  ∀ sel, sel ≠ Some documentId →
         selectedDocument sel (st_data w') = selectedDocument sel (st_data w).
Proof.
  intros Hu Htk Hdel. cbv zeta.
  unfold handleDocumentDelete. rewrite Hu. run_handler.
  rewrite Htk, Hdel. cbn [fst snd st_data].
  unfold selectedDocument, remove_document.
  cbn [documents project chats settings]. split.
  - destruct (falsy (Some documentId)); [done|].
    pose proof (find_first_spec
      (λ doc, bool_decide (Some (doc_id doc) = Some documentId))
      (filter (λ doc, doc_id doc ≠ documentId) (documents (st_data w))))
      as H.
    destruct (find _ _) as [d|]; [|done].
    destruct H as (i & Hi & Hd & _).
    apply bool_decide_eq_true in Hd. injection Hd as Hd.
    apply list_elem_of_lookup_2, list_elem_of_filter in Hi as [Hne _].
    done.
  - intros sel Hsel. destruct (falsy sel); [done|].
    apply find_filter_implied. intros x Hx.
    apply bool_decide_eq_true in Hx. intros E. apply Hsel.
    by rewrite <- Hx, E.
Qed.

Lemma delete_closes_modal_witness :
  let w1 := (handleUrlAdd (Some "user_1") "p1" good_backend
               "https://example.com" loaded_world).2 in
  selectedDocument (Some "w1") (st_data w1) = Some website ∧
  selectedDocument (Some "w1")
    (st_data (handleDocumentDelete (Some "user_1") "p1" good_backend "w1"
                w1).2) = None.
Proof.
  cbv zeta. split; [reflexivity|].
  apply (delete_closes_modal (Some "user_1") "p1" good_backend (Some "jwt")
           "w1" _ eq_refl eq_refl eq_refl).
Defined.

Lemma handlePublishSettings_data userId projectId env data (w : World) :
  st_data (handlePublishSettings userId projectId env data w).2 = st_data w ∨
  ∃ result,
    st_data (handlePublishSettings userId projectId env data w).2
    = replace_settings result (st_data w).
Proof.
  unfold handlePublishSettings.
  destruct (falsy userId), (settings data); try by left.
  run_handler. destruct (getToken env) as [tk| |]; [|by left..].
  destruct (put_settings env _) as [res| |]; [|by left..].
  right. by exists res.
Qed.

Lemma handleDraftSettings_data updates (w : World) :
  st_data (handleDraftSettings updates w).2 = st_data w ∨
  ∃ s, st_data (handleDraftSettings updates w).2
       = replace_settings (Some s) (st_data w).
Proof.
  unfold handleDraftSettings. run_handler.
  destruct (settings (st_data w)) as [s|]; [|by left].
  right. by exists (spread s updates).
Qed.

(** X24. Each mutation stays in its own part of the snapshot, whatever the
    identity and whatever the backend answers.  No mutation touches the
    project.  The chat operations leave documents and settings alone, the
    document operations leave chats and settings alone, and the settings
    operations leave chats and documents alone. *)
Theorem operations_frame userId projectId env op (w : World) :
  op ≠ LoadAllData →
  let d := st_data w in
  let d' := st_data (perform userId projectId env op w).2 in
  project d' = project d ∧
  match op with
  | LoadAllData => True
  | CreateNewChat | DeleteChat _ =>
      documents d' = documents d ∧ settings d' = settings d
  | DocumentUpload _ _ | DocumentDelete _ | UrlAdd _ =>
      chats d' = chats d ∧ settings d' = settings d
  | DraftSettings _ | PublishSettings _ =>
      chats d' = chats d ∧ documents d' = documents d
  end.
Proof.
  intros Hop. cbv zeta. destruct op; cbn [perform]; [done|..].
  - destruct (handleCreateNewChat_data userId projectId env w)
      as [-> | (r & c & _ & ->)]; done.
  - destruct (handleDeleteChat_data userId env chatId w) as [-> | ->]; done.
  - destruct (handleDocumentUpload_data userId projectId env files schedule w)
      as [-> | (tk & g & _ & ->)]; done.
  - destruct (handleDocumentDelete_data userId projectId env documentId w)
      as [-> | ->]; done.
  - destruct (handleUrlAdd_data userId projectId env url w)
      as [-> | (r & x & _ & ->)]; done.
  - destruct (handleDraftSettings_data updates w) as [-> | (s & ->)]; done.
  - destruct (handlePublishSettings_data userId projectId env data w)
      as [-> | (s & ->)]; done.
Qed.

Lemma operations_frame_witness :
  chats (st_data (perform (Some "user_1") "p1" good_backend
                    (DocumentUpload [fileA; fileC] [0; 1; 0; 1; 0; 1])
                    loaded_world).2) = [chat1; chat2].
Proof.
  apply (operations_frame (Some "user_1") "p1" good_backend
           (DocumentUpload [fileA; fileC] [0; 1; 0; 1; 0; 1]) loaded_world).
  done.
Defined.

(** ** Draft and publish together *)

(** X25. Draft, then publish from the page rendered after the draft: the
    one call sent is the PUT of the prior settings overlaid with the
    update, and when the server echoes what it was sent the settings of the
    store are those drafted settings. *)
Theorem draft_then_publish userId projectId env tk (s updates : ProjectSettings)
    (w : World) :
  falsy userId = false →
  getToken env = Fulfilled tk →
  settings (st_data w) = Some s →
  let w1 := (handleDraftSettings updates w).2 in
  let req := Put ("/api/projects/" +:+ projectId +:+ "/settings")
                 (updates ∪ s) tk in
  let r := handlePublishSettings userId projectId env (st_data w1) w1 in
  (∃ evs, trace r.2 = trace w1 ++ evs ∧ remote_calls evs = [req]) ∧
  (put_settings env req = Fulfilled (Some (updates ∪ s)) →
   settings (st_data r.2) = Some (updates ∪ s) ∧
   settings (st_data r.2) = settings (st_data w1)).
Proof.
  intros Hu Htk Hs. cbv zeta.
  unfold handleDraftSettings, handlePublishSettings. run_handler.
  rewrite Hs. cbn. rewrite Hu. run_handler. rewrite Htk. cbn.
  unfold spread. split.
  - destruct (put_settings env _); cbn;
      eexists; (split; [rewrite <- ?(assoc_L (++)); reflexivity|]); done.
  - intros ->. done.
Qed.

Lemma draft_then_publish_witness :
  let w1 := (handleDraftSettings casual loaded_world).2 in
  settings (st_data (handlePublishSettings (Some "user_1") "p1" good_backend
                       (st_data w1) w1).2) = Some (casual ∪ formal).
Proof.
  cbv zeta.
  destruct (draft_then_publish (Some "user_1") "p1" good_backend (Some "jwt")
              formal casual loaded_world eq_refl eq_refl eq_refl)
    as [_ H].
  by apply H.
Defined.

(** X26. A publish answered with [null]: the settings of the store become
    null; from then on a draft changes nothing and only prints its warning,
    and a publish from the re-rendered page stops at the guard with the
    toast "Cannot save settings" and no call. *)
Theorem publish_null_answer userId projectId env data tk s updates
    (w : World) :
  falsy userId = false →
  settings data = Some s →
  getToken env = Fulfilled tk →
  put_settings env
    (Put ("/api/projects/" +:+ projectId +:+ "/settings") s tk)
  = Fulfilled None →
  let w1 := (handlePublishSettings userId projectId env data w).2 in
  let rd := handleDraftSettings updates w1 in
  let rp := handlePublishSettings userId projectId env (st_data w1) w1 in
  settings (st_data w1) = None ∧
  st_data rd.2 = st_data w1 ∧
  trace rd.2
  = trace w1 ++ [EConsoleWarn "Cannot update settings: not loaded yet";
                 ESetData (st_data w1)] ∧
  st_data rp.2 = st_data w1 ∧
  trace rp.2 = trace w1 ++ [EToastError "Cannot save settings"].
Proof.
  intros Hu Hs Htk Hput. cbv zeta.
  unfold handleDraftSettings, handlePublishSettings. rewrite Hu, Hs.
  run_handler. rewrite Htk, Hput. cbn.
  by rewrite <- !(assoc_L (++)).
Qed.

Lemma publish_null_answer_witness :
  let env := {| getToken := Fulfilled (Some "jwt");
                get_project := get_project good_backend;
                get_chats := get_chats good_backend;
                get_files := get_files good_backend;
                get_settings := get_settings good_backend;
                post_chat := post_chat good_backend;
                delete_any := delete_any good_backend;
                post_upload_url := post_upload_url good_backend;
                put_s3 := put_s3 good_backend;
                post_confirm := post_confirm good_backend;
                post_url := post_url good_backend;
                put_settings := λ _, Fulfilled None;
                now := 0 |} in
  settings (st_data (handlePublishSettings (Some "user_1") "p1" env
                       loaded_data loaded_world).2) = None.
Proof.
  cbv zeta.
  eapply (publish_null_answer (Some "user_1") "p1" _ loaded_data (Some "jwt")
            formal casual loaded_world); reflexivity.
Defined.
